(** * 3d-Trombone: the Arduino sketch Trombone_3D_Live_04_05_2011.cpp

    A shallow embedding of the sketch's polling loop: the sensor readings of
    one pass through [loop()] are a record, the sketch's global variables are
    a record threaded through a small state-and-trace monad, and every call
    to [MidiUart] or [Serial] is an event appended to the trace. *)

From Stdlib Require Import String ZArith List Bool Lia Finite.
Import ListNotations.
Open Scope Z_scope.

(** ** Integer types of the AVR target

    [int] is 16 bits, [long] 32 bits, [unsigned char] 8 bits and
    [unsigned long] 32 bits.  Values are mathematical integers; every
    operation that can leave the type's range wraps explicitly. *)
Module CInt.

Definition wrap (w z : Z) : Z := (z + 2 ^ (w - 1)) mod 2 ^ w - 2 ^ (w - 1).

Definition int16 (z : Z) : Z := wrap 16 z.
Definition long32 (z : Z) : Z := wrap 32 z.
Definition uchar (z : Z) : Z := z mod 256.
Definition ulong (z : Z) : Z := z mod 2 ^ 32.

(** [sizeof(int)] in bytes. *)
Definition sizeof_int : Z := 2.

(** Arduino's macro [#define abs(x) ((x)>0?(x):-(x))] at type [int]. *)
Definition abs (x : Z) : Z := if 0 <? x then x else int16 (- x).

(** Arduino's macro
    [#define constrain(amt,low,high) ((amt)<(low)?(low):((amt)>(high)?(high):(amt)))]. *)
Definition constrain (amt low high : Z) : Z :=
  if amt <? low then low else if high <? amt then high else amt.

(** C's logical negation of an [int]. *)
Definition lnot (x : Z) : Z := if x =? 0 then 1 else 0.

(** Modelled from the spec: the Arduino core function
    [long map(long x, long in_min, long in_max, long out_min, long out_max)],
    declared by WProgram.h; its body is not part of the sketch.  It is the
    linear map of [in_min, in_max] onto [out_min, out_max], computed as
    [(x - in_min) * (out_max - out_min) / (in_max - in_min) + out_min] in
    [long] arithmetic with C's division, which truncates toward zero. *)
Definition map (x in_min in_max out_min out_max : Z) : Z :=
  long32 (Z.quot (long32 (long32 (x - in_min) * long32 (out_max - out_min)))
                 (long32 (in_max - in_min)) + out_min).

End CInt.

(** ** What the sketch sends

    One constructor per library call the sketch makes on the MIDI UART and on
    the serial port, with the arguments as passed. *)
Inductive event : Type :=
| MidiNoteOn (chan note vel : Z)
| MidiNoteOff (chan note vel : Z)
| MidiPitchBend (value : Z)
| MidiCC (chan cc value : Z)
| SerialPrint (s : string)
| SerialPrintInt (v : Z)
| SerialPrintln (v : Z)
| SerialPrintlnHex (v : Z).

(** ** What the sketch reads during one pass through [loop()]

    [digitalRead] and [analogRead] give the level of a pin, which is taken
    to hold for the whole pass; [millis_test] and [millis_stamp] are the two
    calls of [millis()] at lines 446 and 450.
    [sw_values_beyond i] and [overtones_beyond i] are the words found at
    [overtone_sw_values[i]] and [overtones[i]] for an index [i] past the
    eight elements of the arrays: the search loop of
    [getOvertoneFromOvertoneSwitches] is bounded by
    [sizeof(overtone_sw_values)], a byte count, and so visits them. *)
Record readings : Type := {
  digitalRead : Z -> Z;
  analogRead : Z -> Z;
  millis_test : Z;
  millis_stamp : Z;
  sw_values_beyond : Z -> Z;
  overtones_beyond : Z -> Z
}.

(** ** The sketch's global variables *)
Record state : Type := {
  currentNote : Z;
  currentPitchBend : Z;
  currentVolume : Z;
  currentXValue : Z;
  currentYValue : Z;
  slide_quant_mode : Z;
  metaMode : bool;
  metaValue : Z;
  ccSendTime : Z
}.

Definition set_currentNote (v : Z) (s : state) : state :=
  {| currentNote := v; currentPitchBend := currentPitchBend s;
     currentVolume := currentVolume s; currentXValue := currentXValue s;
     currentYValue := currentYValue s; slide_quant_mode := slide_quant_mode s;
     metaMode := metaMode s; metaValue := metaValue s;
     ccSendTime := ccSendTime s |}.

Definition set_currentPitchBend (v : Z) (s : state) : state :=
  {| currentNote := currentNote s; currentPitchBend := v;
     currentVolume := currentVolume s; currentXValue := currentXValue s;
     currentYValue := currentYValue s; slide_quant_mode := slide_quant_mode s;
     metaMode := metaMode s; metaValue := metaValue s;
     ccSendTime := ccSendTime s |}.

Definition set_currentVolume (v : Z) (s : state) : state :=
  {| currentNote := currentNote s; currentPitchBend := currentPitchBend s;
     currentVolume := v; currentXValue := currentXValue s;
     currentYValue := currentYValue s; slide_quant_mode := slide_quant_mode s;
     metaMode := metaMode s; metaValue := metaValue s;
     ccSendTime := ccSendTime s |}.

Definition set_currentXValue (v : Z) (s : state) : state :=
  {| currentNote := currentNote s; currentPitchBend := currentPitchBend s;
     currentVolume := currentVolume s; currentXValue := v;
     currentYValue := currentYValue s; slide_quant_mode := slide_quant_mode s;
     metaMode := metaMode s; metaValue := metaValue s;
     ccSendTime := ccSendTime s |}.

Definition set_currentYValue (v : Z) (s : state) : state :=
  {| currentNote := currentNote s; currentPitchBend := currentPitchBend s;
     currentVolume := currentVolume s; currentXValue := currentXValue s;
     currentYValue := v; slide_quant_mode := slide_quant_mode s;
     metaMode := metaMode s; metaValue := metaValue s;
     ccSendTime := ccSendTime s |}.

Definition set_metaMode (v : bool) (s : state) : state :=
  {| currentNote := currentNote s; currentPitchBend := currentPitchBend s;
     currentVolume := currentVolume s; currentXValue := currentXValue s;
     currentYValue := currentYValue s; slide_quant_mode := slide_quant_mode s;
     metaMode := v; metaValue := metaValue s;
     ccSendTime := ccSendTime s |}.

Definition set_metaValue (v : Z) (s : state) : state :=
  {| currentNote := currentNote s; currentPitchBend := currentPitchBend s;
     currentVolume := currentVolume s; currentXValue := currentXValue s;
     currentYValue := currentYValue s; slide_quant_mode := slide_quant_mode s;
     metaMode := metaMode s; metaValue := v;
     ccSendTime := ccSendTime s |}.

Definition set_ccSendTime (v : Z) (s : state) : state :=
  {| currentNote := currentNote s; currentPitchBend := currentPitchBend s;
     currentVolume := currentVolume s; currentXValue := currentXValue s;
     currentYValue := currentYValue s; slide_quant_mode := slide_quant_mode s;
     metaMode := metaMode s; metaValue := metaValue s;
     ccSendTime := v |}.

(** ** The monad of the sketch: global state and a trace of events *)
Definition M (A : Type) : Type := state -> A * state * list event.

Definition ret {A : Type} (a : A) : M A := fun s => (a, s, []).

Definition bind {A B : Type} (m : M A) (k : A -> M B) : M B :=
  fun s =>
    let '(a, s1, o1) := m s in
    let '(b, s2, o2) := k a s1 in
    (b, s2, o1 ++ o2).

Definition emit (e : event) : M unit := fun s => (tt, s, [e]).
Definition gets {A : Type} (f : state -> A) : M A := fun s => (f s, s, []).
Definition modify (f : state -> state) : M unit := fun s => (tt, f s, []).

Declare Scope sketch_scope.
Delimit Scope sketch_scope with sketch.
Notation "x <- m ;; k" := (bind m (fun x => k))
  (at level 61, m at next level, right associativity) : sketch_scope.
Notation "m ;; k" := (bind m (fun _ => k))
  (at level 61, right associativity) : sketch_scope.
Open Scope sketch_scope.

(** The result, final state and trace of a run. *)
Definition state_of {A : Type} (x : A * state * list event) : state := snd (fst x).
Definition trace_of {A : Type} (x : A * state * list event) : list event := snd x.
Definition value_of {A : Type} (x : A * state * list event) : A := fst (fst x).

(** ** Constants of the sketch (lines 72-129) *)
Definition DEBUG : bool := false.

Definition BREATH_PIN : Z := 0.
Definition SLIDE_LPOT_PIN : Z := 1.
Definition X_SENSOR_PIN : Z := 2.
Definition Y_SENSOR_PIN : Z := 3.

Definition OT_SW_0_PIN : Z := 3.
Definition OT_SW_1_PIN : Z := 4.
Definition OT_SW_2_PIN : Z := 5.
Definition OT_SW_3_PIN : Z := 6.
Definition META_SW_PIN : Z := 2.
Definition PANIC_PIN : Z := 7.

Definition FUNDAMENTAL : Z := 48.
Definition OT_1 : Z := 55.
Definition OT_2 : Z := 60.
Definition OT_3 : Z := 64.
Definition OT_4 : Z := 67.
Definition OT_5 : Z := 70.
Definition OT_6 : Z := 72.
Definition OT_7 : Z := 74.
Definition OT_NONE : Z := -1.

Definition overtones : list Z :=
  [FUNDAMENTAL; OT_1; OT_2; OT_3; OT_4; OT_5; OT_6; OT_7].
Definition overtone_sw_values : list Z :=
  [0x00; 0x01; 0x03; 0x07; 0x0f; 0x0e; 0x0c; 0x08].

Definition MIDI_VOLUME_CC : Z := 7.
Definition MIDI_BREATH_CC : Z := 2.
Definition X_CC : Z := 16.
Definition Y_CC : Z := 17.

Definition MIN_CC_INTERVAL : Z := 10.
Definition PB_SEND_THRESHOLD : Z := 10.
Definition VOLUME_SEND_THRESHOLD : Z := 1.
Definition NOTE_ON_VOLUME_THRESHOLD : Z := 60.
Definition VOLUME_MAX_VALUE : Z := 500.

Definition LPOT_NO_TOUCH_VALUE : Z := 1010.
Definition LPOT_SLIDE_POS_1 : Z := 144.
Definition LPOT_SLIDE_POS_7 : Z := 350.
Definition MAX_PITCH_BEND_DOWN : Z := 0.
Definition PITCH_BEND_NEUTRAL : Z := Z.quot 16383 2.

(** The initial values of the globals (lines 114, 131-138). *)
Definition initial_state : state :=
  {| currentNote := -1; currentPitchBend := PITCH_BEND_NEUTRAL;
     currentVolume := 0; currentXValue := 0; currentYValue := 0;
     slide_quant_mode := 0; metaMode := false; metaValue := 0;
     ccSendTime := 0 |}.

(** ** The slide (lines 194-251) *)
Definition quantizeSlide (val : Z) : Z :=
  if (0 <=? val) && (val <=? 683) then 0
  else if (684 <=? val) && (val <=? 2048) then 1365
  else if (2049 <=? val) && (val <=? 3413) then 2731
  else if (3414 <=? val) && (val <=? 4779) then 4096
  else if (4780 <=? val) && (val <=? 6144) then 5461
  else if (6145 <=? val) && (val <=? 7509) then 6827
  else if (7510 <=? val) && (val <=? 8192) then 8191
  else 0.

Definition getPitchBendFromLinearPot (r : readings) (s : state) : Z :=
  let slideVal := analogRead r SLIDE_LPOT_PIN in
  if LPOT_NO_TOUCH_VALUE <? slideVal then -1
  else
    let constrainedVal := slideVal in
    let constrainedVal :=
      if LPOT_SLIDE_POS_7 <? constrainedVal then LPOT_SLIDE_POS_7 else constrainedVal in
    let constrainedVal :=
      if constrainedVal <? LPOT_SLIDE_POS_1 then LPOT_SLIDE_POS_1 else constrainedVal in
    let pbVal :=
      CInt.int16 (CInt.map constrainedVal LPOT_SLIDE_POS_1 LPOT_SLIDE_POS_7
                           PITCH_BEND_NEUTRAL MAX_PITCH_BEND_DOWN) in
    let pbVal := if pbVal <? 0 then 0 else pbVal in
    let pbVal := if negb (slide_quant_mode s =? 0) then quantizeSlide pbVal else pbVal in
    pbVal.

Definition getPitchBend (r : readings) (s : state) : Z :=
  getPitchBendFromLinearPot r s.

(** ** The overtone switches (lines 253-286) *)
Definition getRawOvertoneSwitchValue (r : readings) : Z :=
  let val := CInt.uchar (CInt.lnot (digitalRead r OT_SW_0_PIN)) in
  let val := CInt.uchar (Z.lor (Z.shiftl val 1) (CInt.lnot (digitalRead r OT_SW_1_PIN))) in
  let val := CInt.uchar (Z.lor (Z.shiftl val 1) (CInt.lnot (digitalRead r OT_SW_2_PIN))) in
  let val := CInt.uchar (Z.lor (Z.shiftl val 1) (CInt.lnot (digitalRead r OT_SW_3_PIN))) in
  val.

(** [overtone_sw_values[i]] and [overtones[i]] as the program reads them:
    inside the array its element, past its end the word stored there. *)
Definition overtone_sw_values_at (r : readings) (i : Z) : Z :=
  if (0 <=? i) && (i <? 8) then nth (Z.to_nat i) overtone_sw_values 0
  else sw_values_beyond r i.

Definition overtones_at (r : readings) (i : Z) : Z :=
  if (0 <=? i) && (i <? 8) then nth (Z.to_nat i) overtones 0
  else overtones_beyond r i.

(** [sizeof(overtone_sw_values)]: eight [int]s, counted in bytes. *)
Definition sizeof_overtone_sw_values : Z := 8 * CInt.sizeof_int.

(** The loop [for (int i = 0; i < sizeof(overtone_sw_values); i++)] from
    index [i], with [n] iterations left. *)
Fixpoint overtone_search (r : readings) (val : Z) (n : nat) (i : Z) : Z :=
  match n with
  | O => -1
  | S n' =>
      if val =? overtone_sw_values_at r i then i
      else overtone_search r val n' (i + 1)
  end.

Definition getOvertoneFromOvertoneSwitches (r : readings) : Z :=
  let val := getRawOvertoneSwitchValue r in
  overtone_search r val (Z.to_nat sizeof_overtone_sw_values) 0.

Definition getMIDINote (r : readings) (s : state) : Z :=
  let ot := getOvertoneFromOvertoneSwitches r in
  if -1 =? ot then currentNote s else overtones_at r ot.

(** ** Breath and the two axes (lines 293-312) *)
Definition getVolumeFromBreathSensor (r : readings) : Z :=
  let volRawVal := analogRead r BREATH_PIN in
  if volRawVal <? NOTE_ON_VOLUME_THRESHOLD then 0
  else
    CInt.int16
      (CInt.map (CInt.constrain volRawVal NOTE_ON_VOLUME_THRESHOLD VOLUME_MAX_VALUE)
                NOTE_ON_VOLUME_THRESHOLD VOLUME_MAX_VALUE 0 127).

Definition getVolume (r : readings) : Z := getVolumeFromBreathSensor r.
Definition getXValue (r : readings) : Z := analogRead r X_SENSOR_PIN.
Definition getYValue (r : readings) : Z := analogRead r Y_SENSOR_PIN.

(** ** Sending (lines 314-399) *)
Definition sendNoteOn (note vel chan : Z) (debug : bool) : M unit :=
  if debug then emit (SerialPrint "ON ") ;; emit (SerialPrintln note)
  else emit (MidiNoteOn chan note vel).

Definition sendNoteOff (note vel chan : Z) (debug : bool) : M unit :=
  if debug then emit (SerialPrint "OFF ") ;; emit (SerialPrintln note)
  else emit (MidiNoteOff chan note vel).

Definition sendPitchBend (pitchBend : Z) (debug : bool) : M unit :=
  if negb (-1 =? pitchBend) then
    cur <- gets currentPitchBend ;;
    if PB_SEND_THRESHOLD <? CInt.abs (CInt.int16 (cur - pitchBend)) then
      modify (set_currentPitchBend pitchBend) ;;
      if debug then emit (SerialPrint "BEND ") ;; emit (SerialPrintln pitchBend)
      else emit (MidiPitchBend pitchBend)
    else ret tt
  else ret tt.

Definition sendBreathController (volume chan : Z) (debug : bool) : M unit :=
  cur <- gets currentVolume ;;
  if VOLUME_SEND_THRESHOLD <? CInt.abs (CInt.int16 (cur - volume)) then
    modify (set_currentVolume volume) ;;
    if debug then emit (SerialPrint "BC ") ;; emit (SerialPrintln volume)
    else emit (MidiCC chan MIDI_BREATH_CC volume)
  else ret tt.

Definition sendXYControllers (x y chan : Z) (debug : bool) : M unit :=
  let mappedXValue := CInt.int16 (CInt.map x 0 1024 0 127) in
  let mappedYValue := CInt.int16 (CInt.map y 0 1024 0 127) in
  (curx <- gets currentXValue ;;
   if VOLUME_SEND_THRESHOLD <? CInt.abs (CInt.int16 (curx - mappedXValue)) then
     modify (set_currentXValue mappedXValue) ;;
     if debug then emit (SerialPrint "X ") ;; emit (SerialPrintInt mappedXValue)
     else emit (MidiCC chan X_CC mappedXValue)
   else ret tt) ;;
  (cury <- gets currentYValue ;;
   if VOLUME_SEND_THRESHOLD <? CInt.abs (CInt.int16 (cury - mappedYValue)) then
     modify (set_currentYValue mappedYValue) ;;
     if debug then emit (SerialPrint "Y ") ;; emit (SerialPrintInt mappedYValue)
     else emit (MidiCC chan Y_CC mappedYValue)
   else ret tt).

(** [for (int i = from; ...; i++) body(i)] with [n] iterations left. *)
Fixpoint for_each (n : nat) (from : Z) (body : Z -> M unit) : M unit :=
  match n with
  | O => ret tt
  | S n' => body from ;; for_each n' (from + 1) body
  end.

Definition allNotesOff : M unit :=
  for_each 128 0 (fun i => sendNoteOff i 0 1 DEBUG).

Definition sendMetaCommand (chan value : Z) : M unit :=
  if DEBUG then
    emit (SerialPrint "META ") ;;
    mv <- gets metaValue ;; emit (SerialPrintlnHex mv)
  else emit (MidiNoteOn chan value 127).

(** ** One pass through [loop()] (lines 401-454)

    The body is cut at its two blank lines into the panic test (403-405),
    the meta switch (407-414) and the note machine (416-452).  The closing
    [delay(50)] only lets time pass. *)
Definition loop_panic (r : readings) : M unit :=
  if digitalRead r PANIC_PIN =? 0 then allNotesOff else ret tt.

Definition loop_meta (r : readings) : M unit :=
  if digitalRead r META_SW_PIN =? 0 then
    modify (set_metaMode true) ;;
    modify (set_metaValue (getRawOvertoneSwitchValue r))
  else
    mm <- gets metaMode ;;
    if mm then
      modify (set_metaMode false) ;;
      mv <- gets metaValue ;;
      sendMetaCommand 1 mv
    else ret tt.

Definition loop_notes (r : readings) : M unit :=
  pb <- gets (getPitchBend r) ;;
  note <- gets (getMIDINote r) ;;
  let volume := getVolume r in
  let x := getXValue r in
  let y := getYValue r in
  cur <- gets currentNote ;;
  if negb (-1 =? cur) && (0 =? volume) then
    sendNoteOff cur 0 0 DEBUG ;;
    modify (set_currentNote (-1))
  else if (-1 =? cur) && negb (0 =? volume) && negb (-1 =? note) then
    sendBreathController volume 0 DEBUG ;;
    sendPitchBend pb DEBUG ;;
    sendXYControllers x y 0 DEBUG ;;
    sendNoteOn note 127 0 DEBUG ;;
    modify (set_currentNote note)
  else if negb (-1 =? cur) && negb (note =? cur) then
    sendNoteOff cur 0 0 DEBUG ;;
    sendPitchBend pb DEBUG ;;
    sendBreathController volume 0 DEBUG ;;
    sendXYControllers x y 0 DEBUG ;;
    sendNoteOn note 127 0 DEBUG ;;
    modify (set_currentNote note)
  else if negb (-1 =? cur) then
    last <- gets ccSendTime ;;
    if CInt.ulong (CInt.long32 (last + MIN_CC_INTERVAL)) <? CInt.ulong (millis_test r) then
      sendPitchBend pb DEBUG ;;
      sendBreathController volume 0 DEBUG ;;
      sendXYControllers x y 0 DEBUG ;;
      modify (set_ccSendTime (CInt.long32 (millis_stamp r)))
    else ret tt
  else ret tt.

Definition loop (r : readings) : M unit :=
  loop_panic r ;; loop_meta r ;; loop_notes r.

(** The sketch's [main]: [loop()] once per element of the input, in order. *)
Fixpoint run (rs : list readings) : M unit :=
  match rs with
  | [] => ret tt
  | r :: rs' => loop r ;; run rs'
  end.

(** ** Vocabulary of the statements *)

(** The messages of [allNotesOff()]: a note-off on channel 1 at velocity 0
    for each of the note numbers 0..127, in ascending order. *)
Definition note_numbers : list Z := List.map Z.of_nat (seq 0 128).
Definition all_notes_off_messages : list event :=
  List.map (fun i => MidiNoteOff 1 i 0) note_numbers.

(** What the first two parts of [loop()] send and do. *)
Definition panic_messages (r : readings) : list event :=
  if digitalRead r PANIC_PIN =? 0 then all_notes_off_messages else [].

Definition meta_released (r : readings) (s : state) : bool :=
  negb (digitalRead r META_SW_PIN =? 0) && metaMode s.

Definition meta_messages (r : readings) (s : state) : list event :=
  if meta_released r s then [MidiNoteOn 1 (metaValue s) 127] else [].

Definition meta_update (r : readings) (s : state) : state :=
  if digitalRead r META_SW_PIN =? 0 then
    set_metaValue (getRawOvertoneSwitchValue r) (set_metaMode true s)
  else if metaMode s then set_metaMode false s else s.

(** The same readings with one digital pin at another level. *)
Definition with_pin (pin level : Z) (r : readings) : readings :=
  {| digitalRead := fun p => if p =? pin then level else digitalRead r p;
     analogRead := analogRead r;
     millis_test := millis_test r;
     millis_stamp := millis_stamp r;
     sw_values_beyond := sw_values_beyond r;
     overtones_beyond := overtones_beyond r |}.

(** Kinds of message. *)
Definition is_note_message (e : event) : bool :=
  match e with
  | MidiNoteOn _ _ _ | MidiNoteOff _ _ _ => true
  | _ => false
  end.

Definition is_controller_message (e : event) : bool :=
  match e with
  | MidiPitchBend _ | MidiCC _ _ _ => true
  | _ => false
  end.

(** A meta command is a note-on on channel 1; the notes of the instrument
    are sent on channel 0. *)
Definition is_command (e : event) : bool :=
  match e with
  | MidiNoteOn chan _ _ => chan =? 1
  | _ => false
  end.

(** The four continuous signals, each with the global that caches it, its
    send threshold, the value [loop()] offers for it, and the messages
    that carry it. *)
Inductive signal : Type := PitchBend | Breath | XAxis | YAxis.

Definition cache (sg : signal) (s : state) : Z :=
  match sg with
  | PitchBend => currentPitchBend s
  | Breath => currentVolume s
  | XAxis => currentXValue s
  | YAxis => currentYValue s
  end.

Definition threshold (sg : signal) : Z :=
  match sg with
  | PitchBend => PB_SEND_THRESHOLD
  | _ => VOLUME_SEND_THRESHOLD
  end.

Definition candidate (sg : signal) (r : readings) (s : state) : Z :=
  match sg with
  | PitchBend => getPitchBend r s
  | Breath => getVolume r
  | XAxis => CInt.int16 (CInt.map (getXValue r) 0 1024 0 127)
  | YAxis => CInt.int16 (CInt.map (getYValue r) 0 1024 0 127)
  end.

Definition carries (sg : signal) (e : event) : option Z :=
  match sg, e with
  | PitchBend, MidiPitchBend v => Some v
  | Breath, MidiCC _ cc v => if cc =? MIDI_BREATH_CC then Some v else None
  | XAxis, MidiCC _ cc v => if cc =? X_CC then Some v else None
  | YAxis, MidiCC _ cc v => if cc =? Y_CC then Some v else None
  | _, _ => None
  end.

(** The values transmitted for a signal, oldest first. *)
Definition sent (sg : signal) (out : list event) : list Z :=
  flat_map (fun e => match carries sg e with Some v => [v] | None => [] end) out.

(** An event that carries no value of the signal. *)
Definition quiet (sg : signal) (e : event) : bool :=
  match carries sg e with Some _ => false | None => true end.

(** The analog pin a signal is read from. *)
Definition pin_of (sg : signal) : Z :=
  match sg with
  | PitchBend => SLIDE_LPOT_PIN
  | Breath => BREATH_PIN
  | XAxis => X_SENSOR_PIN
  | YAxis => Y_SENSOR_PIN
  end.

(** Properties of a computation: what it may emit, and what it keeps. *)
Definition emits_only {A : Type} (P : event -> bool) (m : M A) : Prop :=
  forall s, forallb P (trace_of (m s)) = true.

Definition preserves {A B : Type} (f : state -> B) (m : M A) : Prop :=
  forall s, f (state_of (m s)) = f s.

(** One pass of a gated sender over signal [sg] offered the value [v]:
    either nothing is sent for [sg] and its cache keeps its value, or [v]
    alone is sent, the cache becomes [v], and [v] was further than the
    threshold from the cached value. *)
Definition sendable (sg : signal) (v : Z) : Prop :=
  match sg with
  | PitchBend => v <> -1
  | _ => True
  end.

Definition gated_step (sg : signal) (v : Z) (s s' : state) (out : list event) : Prop :=
  (sent sg out = [] /\ cache sg s' = cache sg s) \/
  (sent sg out = [v] /\ cache sg s' = v /\
   threshold sg < Z.abs (v - cache sg s) /\ sendable sg v).

Definition gated_at {A : Type} (sg : signal) (v : Z) (m : M A) (s : state) : Prop :=
  gated_step sg v s (state_of (m s)) (trace_of (m s)).

Definition gated {A : Type} (sg : signal) (v : Z) (m : M A) : Prop :=
  forall s, gated_at sg v m s.

(** The last value of a list, or [d] when it is empty. *)
Definition last_or (d : Z) (l : list Z) : Z := last l d.

(** A computation keeps every cache equal to the last value it transmitted
    for the signal, or to the cache's former value when it transmitted
    none. *)
Definition tracks {A : Type} (m : M A) : Prop :=
  forall sg s,
    cache sg (state_of (m s)) = last_or (cache sg s) (sent sg (trace_of (m s))).

(** Two states that agree on everything but the meta variables. *)
Definition same_notes (s1 s2 : state) : Prop :=
  currentNote s1 = currentNote s2 /\
  currentPitchBend s1 = currentPitchBend s2 /\
  currentVolume s1 = currentVolume s2 /\
  currentXValue s1 = currentXValue s2 /\
  currentYValue s1 = currentYValue s2 /\
  slide_quant_mode s1 = slide_quant_mode s2 /\
  ccSendTime s1 = ccSendTime s2.

(** Two readings that agree on the analog pin of a signal. *)
Definition same_reading (sg : signal) (r1 r2 : readings) : Prop :=
  analogRead r1 (pin_of sg) = analogRead r2 (pin_of sg).

(** The table index whose note is [n]. *)
Fixpoint index_of (n : Z) (l : list Z) (i : Z) : Z :=
  match l with
  | [] => -1
  | x :: l' => if x =? n then i else index_of n l' (i + 1)
  end.

(** The seven outputs of the slide quantization. *)
Definition slide_band_outputs : list Z := [0; 1365; 2731; 4096; 5461; 6827; 8191].

(** ** Sample readings and states *)
Definition sample_readings (panic meta sw0 sw1 sw2 sw3 slide breath x y : Z) : readings :=
  {| digitalRead := fun p =>
       if p =? PANIC_PIN then panic
       else if p =? META_SW_PIN then meta
       else if p =? OT_SW_0_PIN then sw0
       else if p =? OT_SW_1_PIN then sw1
       else if p =? OT_SW_2_PIN then sw2
       else if p =? OT_SW_3_PIN then sw3
       else 1;
     analogRead := fun p =>
       if p =? BREATH_PIN then breath
       else if p =? SLIDE_LPOT_PIN then slide
       else if p =? X_SENSOR_PIN then x
       else if p =? Y_SENSOR_PIN then y
       else 0;
     millis_test := 1000;
     millis_stamp := 1000;
     sw_values_beyond := fun _ => 0xff;
     overtones_beyond := fun _ => 0 |}.

(** Panic pressed while the player blows on the open chord. *)
Definition panic_with_breath : readings := sample_readings 0 1 1 1 1 1 1023 80 0 0.

(** The meta switch held while the player blows, on chord 0b0000 and on
    chord 0b0001. *)
Definition meta_held_chord_0000 : readings := sample_readings 1 0 1 1 1 1 1023 80 0 0.
Definition meta_held_chord_0001 : readings := sample_readings 1 0 1 1 1 0 1023 80 0 0.

(** Every switch open and no breath. *)
Definition all_released : readings := sample_readings 1 1 1 1 1 1 1023 0 0 0.

(** Breath on the open chord, on chord 0b0101 (not in the table) and with
    breath stopped. *)
Definition blow_chord_0000 : readings := sample_readings 1 1 1 1 1 1 200 80 512 300.
Definition blow_chord_0101 : readings := sample_readings 1 1 1 0 1 0 200 80 512 300.

(** A state in which the meta switch was held on chord 0b0011, and one in
    which the fundamental is sounding. *)
Definition meta_pending : state := set_metaValue 3 (set_metaMode true initial_state).
Definition sounding_fundamental : state := set_currentNote FUNDAMENTAL initial_state.

(** ** Vocabulary of the further properties *)

(** A note message on channel 0, the channel the instrument plays on. *)
Definition on_note_channel (e : event) : bool :=
  match e with
  | MidiNoteOn chan _ _ | MidiNoteOff chan _ _ => chan =? 0
  | _ => false
  end.

(** Replays the note messages of channel 0 from the sounding note [cur]
    (-1 for none): a note-on is accepted only while nothing sounds, a
    note-off only for the note that sounds.  The result is the note sounding
    at the end, or [None] when a message was not accepted. *)
Fixpoint monophonic (cur : Z) (out : list event) : option Z :=
  match out with
  | [] => Some cur
  | MidiNoteOn chan n _ :: out' =>
      if chan =? 0 then
        if cur =? -1 then monophonic n out' else None
      else monophonic cur out'
  | MidiNoteOff chan n _ :: out' =>
      if chan =? 0 then
        if negb (cur =? -1) && (n =? cur) then monophonic (-1) out' else None
      else monophonic cur out'
  | _ :: out' => monophonic cur out'
  end.


(** The note machine's view of a pass: no note, or one of the table. *)
Definition table_note (n : Z) : Prop := n = -1 \/ In n overtones.

(** The rate test of line 446. *)
Definition cc_interval_elapsed (r : readings) (s : state) : bool :=
  CInt.ulong (CInt.long32 (ccSendTime s + MIN_CC_INTERVAL)) <? CInt.ulong (millis_test r).

(** Breath on chord 0b0001, and the fundamental sounding with controllers
    sent 5 ms before the sample readings' clock. *)
Definition blow_chord_0001 : readings := sample_readings 1 1 1 1 1 0 200 80 512 300.
Definition recently_sent : state := set_ccSendTime 995 sounding_fundamental.

(** The power-on state with slide quantization switched on. *)
Definition quantizing : state :=
  {| currentNote := -1; currentPitchBend := PITCH_BEND_NEUTRAL;
     currentVolume := 0; currentXValue := 0; currentYValue := 0;
     slide_quant_mode := 1; metaMode := false; metaValue := 0;
     ccSendTime := 0 |}.

(** The forms a message of the sketch takes: a note-on at velocity 127 on
    channel 0 or 1, a note-off at velocity 0 on channel 0 or 1, a pitch
    bend, or a controller message on channel 0 for the breath, X or Y
    controller. *)
Definition message_form (e : event) : bool :=
  match e with
  | MidiNoteOn chan _ vel => ((chan =? 0) || (chan =? 1)) && (vel =? 127)
  | MidiNoteOff chan _ vel => ((chan =? 0) || (chan =? 1)) && (vel =? 0)
  | MidiPitchBend _ => true
  | MidiCC chan cc _ =>
      (chan =? 0) && ((cc =? MIDI_BREATH_CC) || (cc =? X_CC) || (cc =? Y_CC))
  | _ => false
  end.

(** ** Arithmetic of the integer types *)

Lemma int16_small (z : Z) : -32768 <= z < 32768 -> CInt.int16 z = z.
Proof.
  intros H. unfold CInt.int16, CInt.wrap.
  change (2 ^ (16 - 1)) with 32768. change (2 ^ 16) with 65536.
  rewrite Z.mod_small by lia. lia.
Qed.

Lemma long32_small (z : Z) : -2147483648 <= z < 2147483648 -> CInt.long32 z = z.
Proof.
  intros H. unfold CInt.long32, CInt.wrap.
  change (2 ^ (32 - 1)) with 2147483648. change (2 ^ 32) with 4294967296.
  rewrite Z.mod_small by lia. lia.
Qed.

(** The test [abs(cur - v) > t] of the senders succeeds only when [v] is
    further than [t] from [cur], whatever the wrap-around. *)
Lemma abs_gate (t cur v : Z) :
  0 <= t < 32767 ->
  (t <? CInt.abs (CInt.int16 (cur - v))) = true ->
  t < Z.abs (v - cur).
Proof.
  intros Ht H. apply Z.ltb_lt in H.
  destruct (Z_lt_le_dec t (Z.abs (v - cur))) as [Hlt | Hle]; [exact Hlt | exfalso].
  assert (Hd : CInt.int16 (cur - v) = cur - v) by (apply int16_small; lia).
  rewrite Hd in H. unfold CInt.abs in H.
  destruct (0 <? cur - v) eqn:Hpos.
  - apply Z.ltb_lt in Hpos. lia.
  - apply Z.ltb_ge in Hpos. rewrite int16_small in H by lia. lia.
Qed.

(** ** The slide *)

Lemma quantizeSlide_cases (x : Z) :
  (0 <= x <= 683 /\ quantizeSlide x = 0) \/
  (684 <= x <= 2048 /\ quantizeSlide x = 1365) \/
  (2049 <= x <= 3413 /\ quantizeSlide x = 2731) \/
  (3414 <= x <= 4779 /\ quantizeSlide x = 4096) \/
  (4780 <= x <= 6144 /\ quantizeSlide x = 5461) \/
  (6145 <= x <= 7509 /\ quantizeSlide x = 6827) \/
  (7510 <= x <= 8192 /\ quantizeSlide x = 8191) \/
  ((x < 0 \/ 8192 < x) /\ quantizeSlide x = 0).
Proof.
  unfold quantizeSlide.
  repeat match goal with
         | |- context [?a <=? ?b] =>
             destruct (Z.leb_spec a b); cbn [andb]
         end; lia.
Qed.

(** C7. [quantizeSlide] is idempotent on every integer; every input in
    0..8192 is sent to the output of the one band that contains it, which is
    one of the seven values 0, 1365, 2731, 4096, 5461, 6827, 8191; every
    input outside 0..8192 is sent to 0. *)
Theorem quantizeSlide_idempotent_bands (x : Z) :
  quantizeSlide (quantizeSlide x) = quantizeSlide x /\
  (0 <= x <= 8192 ->
   In (quantizeSlide x) slide_band_outputs /\
   ((0 <= x <= 683 /\ quantizeSlide x = 0) \/
    (684 <= x <= 2048 /\ quantizeSlide x = 1365) \/
    (2049 <= x <= 3413 /\ quantizeSlide x = 2731) \/
    (3414 <= x <= 4779 /\ quantizeSlide x = 4096) \/
    (4780 <= x <= 6144 /\ quantizeSlide x = 5461) \/
    (6145 <= x <= 7509 /\ quantizeSlide x = 6827) \/
    (7510 <= x <= 8192 /\ quantizeSlide x = 8191))) /\
  (x < 0 \/ 8192 < x -> quantizeSlide x = 0).
Proof.
  pose proof (quantizeSlide_cases x) as H.
  split; [| split].
  - decompose [and or] H;
      match goal with E : quantizeSlide x = _ |- _ => rewrite E end;
      reflexivity.
  - intros Hx. split.
    + decompose [and or] H;
        match goal with E : quantizeSlide x = _ |- _ => rewrite E end;
        cbn; try tauto; lia.
    + decompose [and or] H; try lia; tauto.
  - intros Hx. decompose [and or] H; try lia; assumption.
Qed.

Lemma quantizeSlide_idempotent_bands_witness :
  quantizeSlide (quantizeSlide 5000) = quantizeSlide 5000 /\
  In (quantizeSlide 5000) slide_band_outputs /\
  quantizeSlide 9000 = 0.
Proof.
  split; [exact (proj1 (quantizeSlide_idempotent_bands 5000)) |].
  split.
  - apply (proj1 (proj2 (quantizeSlide_idempotent_bands 5000))). lia.
  - apply (proj2 (proj2 (quantizeSlide_idempotent_bands 9000))). lia.
Defined.

(** The value line 207 computes from a constrained reading. *)
Lemma slide_map_value (c : Z) :
  LPOT_SLIDE_POS_1 <= c <= LPOT_SLIDE_POS_7 ->
  CInt.int16 (CInt.map c LPOT_SLIDE_POS_1 LPOT_SLIDE_POS_7
                       PITCH_BEND_NEUTRAL MAX_PITCH_BEND_DOWN)
  = Z.quot ((c - 144) * (-8191)) 206 + 8191 /\
  0 <= Z.quot ((c - 144) * (-8191)) 206 + 8191 <= 8191.
Proof.
  unfold LPOT_SLIDE_POS_1, LPOT_SLIDE_POS_7. intros Hc.
  assert (Hq : -8191 <= Z.quot ((c - 144) * (-8191)) 206 <= 0).
  { split.
    - apply Z.le_trans with (Z.quot (206 * (-8191)) 206);
        [vm_compute; discriminate | apply Z.quot_le_mono; lia].
    - apply Z.le_trans with (Z.quot 0 206);
        [apply Z.quot_le_mono; lia | vm_compute; discriminate]. }
  split; [| lia].
  unfold CInt.map.
  change (MAX_PITCH_BEND_DOWN - PITCH_BEND_NEUTRAL) with (-8191).
  change (350 - 144) with 206.
  change PITCH_BEND_NEUTRAL with 8191.
  rewrite (long32_small (c - 144)) by lia.
  rewrite (long32_small (-8191)) by lia.
  rewrite (long32_small 206) by lia.
  rewrite (long32_small ((c - 144) * -8191)) by lia.
  rewrite long32_small by lia.
  apply int16_small. lia.
Qed.

(** [getPitchBendFromLinearPot] with quantization off, as a function of the
    raw reading. *)
Lemma getPitchBend_unquantized (r : readings) (s : state) :
  slide_quant_mode s = 0 ->
  analogRead r SLIDE_LPOT_PIN <= LPOT_NO_TOUCH_VALUE ->
  getPitchBend r s =
  Z.quot ((Z.max 144 (Z.min 350 (analogRead r SLIDE_LPOT_PIN)) - 144) * (-8191)) 206 + 8191.
Proof.
  intros Hq Ht. unfold getPitchBend, getPitchBendFromLinearPot.
  rewrite Hq. cbn [Z.eqb negb].
  destruct (Z.ltb_spec LPOT_NO_TOUCH_VALUE (analogRead r SLIDE_LPOT_PIN)); [lia |].
  set (v := analogRead r SLIDE_LPOT_PIN) in *.
  set (c1 := if LPOT_SLIDE_POS_7 <? v then LPOT_SLIDE_POS_7 else v).
  set (c2 := if c1 <? LPOT_SLIDE_POS_1 then LPOT_SLIDE_POS_1 else c1).
  assert (Hc : c2 = Z.max 144 (Z.min 350 v)).
  { subst c1 c2. unfold LPOT_SLIDE_POS_1, LPOT_SLIDE_POS_7.
    destruct (Z.ltb_spec 350 v); destruct (Z.ltb_spec 144 v);
      repeat match goal with
             | |- context [?a <? ?b] => destruct (Z.ltb_spec a b)
             end; lia. }
  destruct (slide_map_value c2) as [E B].
  { rewrite Hc. unfold LPOT_SLIDE_POS_1, LPOT_SLIDE_POS_7. lia. }
  rewrite E. rewrite Hc in *.
  destruct (Z.ltb_spec (Z.quot ((Z.max 144 (Z.min 350 v) - 144) * -8191) 206 + 8191) 0);
    [lia | reflexivity].
Qed.

(** C8. With quantization off, among the readings at or below the no-touch
    value the pitch bend never increases as the raw reading increases; the
    first-position reading 144 gives the neutral bend and the
    seventh-position reading 350 gives 0. *)
Theorem getPitchBend_monotone (r1 r2 : readings) (s : state) :
  slide_quant_mode s = 0 ->
  analogRead r1 SLIDE_LPOT_PIN <= analogRead r2 SLIDE_LPOT_PIN ->
  analogRead r2 SLIDE_LPOT_PIN <= LPOT_NO_TOUCH_VALUE ->
  getPitchBend r2 s <= getPitchBend r1 s /\
  (analogRead r1 SLIDE_LPOT_PIN = LPOT_SLIDE_POS_1 ->
   getPitchBend r1 s = PITCH_BEND_NEUTRAL) /\
  (analogRead r2 SLIDE_LPOT_PIN = LPOT_SLIDE_POS_7 ->
   getPitchBend r2 s = MAX_PITCH_BEND_DOWN).
Proof.
  intros Hq Hle Ht.
  rewrite (getPitchBend_unquantized r1 s Hq) by lia.
  rewrite (getPitchBend_unquantized r2 s Hq) by lia.
  split; [| split].
  - apply Z.add_le_mono_r. apply Z.quot_le_mono; [lia |]. nia.
  - intros E. rewrite E. reflexivity.
  - intros E. rewrite E. reflexivity.
Qed.

Lemma getPitchBend_monotone_witness :
  getPitchBend (sample_readings 1 1 1 1 1 1 350 80 0 0) initial_state
  <= getPitchBend (sample_readings 1 1 1 1 1 1 144 80 0 0) initial_state /\
  getPitchBend (sample_readings 1 1 1 1 1 1 144 80 0 0) initial_state = PITCH_BEND_NEUTRAL /\
  getPitchBend (sample_readings 1 1 1 1 1 1 350 80 0 0) initial_state = MAX_PITCH_BEND_DOWN.
Proof.
  pose proof (getPitchBend_monotone
                (sample_readings 1 1 1 1 1 1 144 80 0 0)
                (sample_readings 1 1 1 1 1 1 350 80 0 0)
                initial_state) as H.
  destruct H as (H1 & H2 & H3).
  - reflexivity.
  - vm_compute. discriminate.
  - vm_compute. discriminate.
  - split; [exact H1 | split; [apply H2 | apply H3]]; reflexivity.
Defined.

(** ** The chord decoder *)

Lemma getRawOvertoneSwitchValue_range (r : readings) :
  0 <= getRawOvertoneSwitchValue r < 16.
Proof.
  unfold getRawOvertoneSwitchValue, CInt.lnot.
  destruct (digitalRead r OT_SW_0_PIN =? 0);
    destruct (digitalRead r OT_SW_1_PIN =? 0);
    destruct (digitalRead r OT_SW_2_PIN =? 0);
    destruct (digitalRead r OT_SW_3_PIN =? 0);
    vm_compute; split; congruence.
Qed.

(** The search returns -1 or the first index it visits whose word equals
    the pattern. *)
Lemma overtone_search_result (r : readings) (val : Z) (n : nat) (i : Z) :
  overtone_search r val n i = -1 \/
  (i <= overtone_search r val n i < i + Z.of_nat n /\
   val = overtone_sw_values_at r (overtone_search r val n i)).
Proof.
  revert i. induction n as [| n IH]; intros i.
  - left. reflexivity.
  - cbn [overtone_search].
    destruct (Z.eqb_spec val (overtone_sw_values_at r i)) as [E | E].
    + right. split; [lia | exact E].
    + destruct (IH (i + 1)) as [H | [H1 H2]]; [left; exact H | right].
      split; [lia | exact H2].
Qed.

Lemma overtone_sw_values_at_table (r : readings) (i : Z) :
  0 <= i < 8 -> In (overtone_sw_values_at r i) overtone_sw_values.
Proof.
  intros H. unfold overtone_sw_values_at.
  destruct (Z.leb_spec 0 i); [| lia].
  destruct (Z.ltb_spec i 8); [| lia].
  cbn [andb]. apply nth_In.
  change (length overtone_sw_values) with 8%nat. lia.
Qed.

(** C4, as the code has it.  The pattern read from the switches is a 4-bit
    value; 0b0000 decodes to index 0 (the fundamental) and 0b0001 to index 1
    (the first overtone); 0b1111 decodes to index 4, the fifth entry of the
    table, whose note is OT_4; a pattern absent from the 8-entry table is
    never decoded to one of the table's indices 0..7. *)
Theorem getOvertoneFromOvertoneSwitches_table (r : readings) :
  0 <= getRawOvertoneSwitchValue r < 16 /\
  (getRawOvertoneSwitchValue r = 0 ->
   getOvertoneFromOvertoneSwitches r = 0 /\ overtones_at r 0 = FUNDAMENTAL) /\
  (getRawOvertoneSwitchValue r = 1 ->
   getOvertoneFromOvertoneSwitches r = 1 /\ overtones_at r 1 = OT_1) /\
  (getRawOvertoneSwitchValue r = 15 ->
   getOvertoneFromOvertoneSwitches r = 4 /\ overtones_at r 4 = OT_4) /\
  (~ In (getRawOvertoneSwitchValue r) overtone_sw_values ->
   ~ 0 <= getOvertoneFromOvertoneSwitches r < 8).
Proof.
  split; [apply getRawOvertoneSwitchValue_range |].
  unfold getOvertoneFromOvertoneSwitches.
  repeat split.
  - rewrite H. reflexivity.
  - rewrite H. reflexivity.
  - rewrite H. reflexivity.
  - intros Hnot Hidx.
    destruct (overtone_search_result r (getRawOvertoneSwitchValue r)
                (Z.to_nat sizeof_overtone_sw_values) 0) as [E | [_ E]].
    + rewrite E in Hidx. lia.
    + apply Hnot. rewrite E at 1. apply overtone_sw_values_at_table. exact Hidx.
Qed.

Lemma getOvertoneFromOvertoneSwitches_table_witness :
  getOvertoneFromOvertoneSwitches (sample_readings 1 1 1 1 1 1 0 0 0 0) = 0 /\
  getOvertoneFromOvertoneSwitches (sample_readings 1 1 1 1 1 0 0 0 0 0) = 1 /\
  getOvertoneFromOvertoneSwitches (sample_readings 1 1 0 0 0 0 0 0 0 0) = 4 /\
  ~ 0 <= getOvertoneFromOvertoneSwitches (sample_readings 1 1 1 0 1 0 0 0 0 0) < 8.
Proof.
  split; [| split; [| split]].
  - apply (getOvertoneFromOvertoneSwitches_table (sample_readings 1 1 1 1 1 1 0 0 0 0)).
    reflexivity.
  - apply (getOvertoneFromOvertoneSwitches_table (sample_readings 1 1 1 1 1 0 0 0 0 0)).
    reflexivity.
  - apply (getOvertoneFromOvertoneSwitches_table (sample_readings 1 1 0 0 0 0 0 0 0 0)).
    reflexivity.
  - apply (getOvertoneFromOvertoneSwitches_table (sample_readings 1 1 1 0 1 0 0 0 0 0)).
    vm_compute. intuition discriminate.
Defined.

(** C4 as stated fails at 0b1111: the decoder answers 4, and the index of
    OT_5 in [overtones] is 5. *)
Lemma getOvertoneFromOvertoneSwitches_1111_not_OT_5 :
  getRawOvertoneSwitchValue (sample_readings 1 1 0 0 0 0 0 0 0 0) = 15 /\
  index_of OT_5 overtones 0 = 5 /\
  getOvertoneFromOvertoneSwitches (sample_readings 1 1 0 0 0 0 0 0 0 0)
  <> index_of OT_5 overtones 0.
Proof.
  vm_compute. repeat split; discriminate.
Qed.

(** The search runs over [sizeof(overtone_sw_values)] = 16 indices: when the
    word stored after the table equals the pattern, an absent pattern such as
    0b0101 is decoded to the index 8. *)
Example overtone_search_past_table :
  let r := {| digitalRead := digitalRead (sample_readings 1 1 1 0 1 0 0 0 0 0);
              analogRead := fun _ => 0;
              millis_test := 0; millis_stamp := 0;
              sw_values_beyond := fun _ => 5;
              overtones_beyond := fun _ => 0 |} in
  getRawOvertoneSwitchValue r = 5 /\
  ~ In 5 overtone_sw_values /\
  getOvertoneFromOvertoneSwitches r = 8.
Proof.
  vm_compute. repeat split; try reflexivity. intuition discriminate.
Qed.

(** ** Running the monad *)

Lemma bind_trace {A B : Type} (m : M A) (k : A -> M B) (s : state) :
  trace_of (bind m k s) =
  trace_of (m s) ++ trace_of (k (value_of (m s)) (state_of (m s))).
Proof.
  unfold bind, trace_of, state_of, value_of.
  destruct (m s) as [[a s1] o1]. cbn.
  destruct (k a s1) as [[b s2] o2]. reflexivity.
Qed.

Lemma bind_state {A B : Type} (m : M A) (k : A -> M B) (s : state) :
  state_of (bind m k s) = state_of (k (value_of (m s)) (state_of (m s))).
Proof.
  unfold bind, trace_of, state_of, value_of.
  destruct (m s) as [[a s1] o1]. cbn.
  destruct (k a s1) as [[b s2] o2]. reflexivity.
Qed.

Lemma run_result (m : M unit) (s : state) :
  m s = (tt, state_of (m s), trace_of (m s)).
Proof.
  unfold state_of, trace_of. destruct (m s) as [[[] s1] o1]. reflexivity.
Qed.

Create HintDb sketch.

(** *** What a computation may emit *)

Lemma emits_only_ret {A : Type} (P : event -> bool) (a : A) : emits_only P (ret a).
Proof. intros s. reflexivity. Qed.

Lemma emits_only_gets {A : Type} (P : event -> bool) (f : state -> A) :
  emits_only P (gets f).
Proof. intros s. reflexivity. Qed.

Lemma emits_only_modify (P : event -> bool) (f : state -> state) :
  emits_only P (modify f).
Proof. intros s. reflexivity. Qed.

Lemma emits_only_emit (P : event -> bool) (e : event) :
  P e = true -> emits_only P (emit e).
Proof. intros H s. cbn. rewrite H. reflexivity. Qed.

Lemma emits_only_bind {A B : Type} (P : event -> bool) (m : M A) (k : A -> M B) :
  emits_only P m -> (forall a, emits_only P (k a)) -> emits_only P (bind m k).
Proof.
  intros Hm Hk s. rewrite bind_trace, forallb_app, Hm, Hk. reflexivity.
Qed.

Lemma emits_only_if {A : Type} (P : event -> bool) (b : bool) (m1 m2 : M A) :
  emits_only P m1 -> emits_only P m2 -> emits_only P (if b then m1 else m2).
Proof. destruct b; auto. Qed.

Lemma emits_only_for_each (P : event -> bool) (body : Z -> M unit) (n : nat) :
  (forall i, emits_only P (body i)) ->
  forall from, emits_only P (for_each n from body).
Proof.
  intros Hb. induction n as [| n IH]; intros from; cbn [for_each].
  - apply emits_only_ret.
  - apply emits_only_bind; [apply Hb | intros _; apply IH].
Qed.

(** *** What a computation keeps *)

Lemma preserves_ret {A B : Type} (f : state -> B) (a : A) : preserves f (ret a).
Proof. intros s. reflexivity. Qed.

Lemma preserves_gets {A B : Type} (f : state -> B) (g : state -> A) :
  preserves f (gets g).
Proof. intros s. reflexivity. Qed.

Lemma preserves_emit {B : Type} (f : state -> B) (e : event) : preserves f (emit e).
Proof. intros s. reflexivity. Qed.

Lemma preserves_modify {B : Type} (f : state -> B) (g : state -> state) :
  (forall s, f (g s) = f s) -> preserves f (modify g).
Proof. intros H s. apply H. Qed.

Lemma preserves_bind {A B C : Type} (f : state -> C) (m : M A) (k : A -> M B) :
  preserves f m -> (forall a, preserves f (k a)) -> preserves f (bind m k).
Proof.
  intros Hm Hk s. rewrite bind_state, Hk, Hm. reflexivity.
Qed.

Lemma preserves_if {A B : Type} (f : state -> B) (b : bool) (m1 m2 : M A) :
  preserves f m1 -> preserves f m2 -> preserves f (if b then m1 else m2).
Proof. destruct b; auto. Qed.

Lemma preserves_for_each {B : Type} (f : state -> B) (body : Z -> M unit) (n : nat) :
  (forall i, preserves f (body i)) ->
  forall from, preserves f (for_each n from body).
Proof.
  intros Hb. induction n as [| n IH]; intros from; cbn [for_each].
  - apply preserves_ret.
  - apply preserves_bind; [apply Hb | intros _; apply IH].
Qed.

#[local] Hint Resolve
  emits_only_ret emits_only_gets emits_only_modify emits_only_emit
  emits_only_bind emits_only_if emits_only_for_each
  preserves_ret preserves_gets preserves_emit preserves_modify
  preserves_bind preserves_if preserves_for_each : sketch.

(** *** The senders, one by one *)

Ltac open_senders :=
  unfold sendNoteOn, sendNoteOff, sendPitchBend, sendBreathController,
    sendXYControllers, sendMetaCommand, allNotesOff, DEBUG.

Lemma sendNoteOn_emits (P : event -> bool) (note vel chan : Z) :
  P (MidiNoteOn chan note vel) = true -> emits_only P (sendNoteOn note vel chan DEBUG).
Proof. intros H. open_senders. auto with sketch. Qed.

Lemma sendNoteOff_emits (P : event -> bool) (note vel chan : Z) :
  P (MidiNoteOff chan note vel) = true -> emits_only P (sendNoteOff note vel chan DEBUG).
Proof. intros H. open_senders. auto with sketch. Qed.

Lemma sendNoteOn_preserves {B : Type} (f : state -> B) (note vel chan : Z) :
  preserves f (sendNoteOn note vel chan DEBUG).
Proof. open_senders. auto with sketch. Qed.

Lemma sendNoteOff_preserves {B : Type} (f : state -> B) (note vel chan : Z) :
  preserves f (sendNoteOff note vel chan DEBUG).
Proof. open_senders. auto with sketch. Qed.

Lemma sendPitchBend_emits (P : event -> bool) (pb : Z) :
  P (MidiPitchBend pb) = true -> emits_only P (sendPitchBend pb DEBUG).
Proof. intros H. open_senders. auto 10 with sketch. Qed.

Lemma sendBreathController_emits (P : event -> bool) (v chan : Z) :
  P (MidiCC chan MIDI_BREATH_CC v) = true ->
  emits_only P (sendBreathController v chan DEBUG).
Proof. intros H. open_senders. auto 10 with sketch. Qed.

Lemma sendXYControllers_emits (P : event -> bool) (x y chan : Z) :
  (forall v, P (MidiCC chan X_CC v) = true) ->
  (forall v, P (MidiCC chan Y_CC v) = true) ->
  emits_only P (sendXYControllers x y chan DEBUG).
Proof. intros Hx Hy. open_senders. auto 10 with sketch. Qed.

Lemma sendPitchBend_preserves {B : Type} (f : state -> B) (pb : Z) :
  (forall v s, f (set_currentPitchBend v s) = f s) ->
  preserves f (sendPitchBend pb DEBUG).
Proof. intros H. open_senders. auto 10 with sketch. Qed.

Lemma sendBreathController_preserves {B : Type} (f : state -> B) (v chan : Z) :
  (forall v s, f (set_currentVolume v s) = f s) ->
  preserves f (sendBreathController v chan DEBUG).
Proof. intros H. open_senders. auto 10 with sketch. Qed.

Lemma sendXYControllers_preserves {B : Type} (f : state -> B) (x y chan : Z) :
  (forall v s, f (set_currentXValue v s) = f s) ->
  (forall v s, f (set_currentYValue v s) = f s) ->
  preserves f (sendXYControllers x y chan DEBUG).
Proof. intros Hx Hy. open_senders. auto 10 with sketch. Qed.

#[local] Hint Resolve
  sendNoteOn_emits sendNoteOff_emits sendNoteOn_preserves sendNoteOff_preserves
  sendPitchBend_emits sendBreathController_emits sendXYControllers_emits
  sendPitchBend_preserves sendBreathController_preserves
  sendXYControllers_preserves : sketch.

(** *** Gated sending *)

Lemma sent_app (sg : signal) (o1 o2 : list event) :
  sent sg (o1 ++ o2) = sent sg o1 ++ sent sg o2.
Proof. unfold sent. apply flat_map_app. Qed.

Lemma sent_quiet (sg : signal) (out : list event) :
  forallb (quiet sg) out = true -> sent sg out = [].
Proof.
  induction out as [| e out IH]; intros H; [reflexivity |].
  cbn in H. apply andb_true_iff in H. destruct H as [He Ho].
  unfold sent. cbn [flat_map]. unfold quiet in He.
  destruct (carries sg e); [discriminate |]. apply IH, Ho.
Qed.

Lemma sent_In (sg : signal) (out : list event) (e : event) (v : Z) :
  In e out -> carries sg e = Some v -> In v (sent sg out).
Proof.
  intros Hin Hc. unfold sent. apply in_flat_map.
  exists e. split; [exact Hin |]. rewrite Hc. left. reflexivity.
Qed.

Lemma gated_at_quiet {A : Type} (sg : signal) (v : Z) (m : M A) (s : state) :
  emits_only (quiet sg) m -> preserves (cache sg) m -> gated_at sg v m s.
Proof.
  intros He Hp. left. split; [apply sent_quiet, He | apply Hp].
Qed.

Lemma gated_at_bind_l {A B : Type} (sg : signal) (v : Z)
      (m : M A) (k : A -> M B) (s : state) :
  gated_at sg v m s ->
  (forall a, emits_only (quiet sg) (k a)) ->
  (forall a, preserves (cache sg) (k a)) ->
  gated_at sg v (bind m k) s.
Proof.
  unfold gated_at, gated_step. intros Hm He Hp.
  rewrite bind_trace, bind_state, sent_app, Hp.
  rewrite (sent_quiet sg _ (He _ _)), app_nil_r. exact Hm.
Qed.

Lemma gated_at_bind_r {A B : Type} (sg : signal) (v : Z)
      (m : M A) (k : A -> M B) (s : state) :
  emits_only (quiet sg) m ->
  preserves (cache sg) m ->
  (forall a, gated_at sg v (k a) (state_of (m s))) ->
  gated_at sg v (bind m k) s.
Proof.
  unfold gated_at, gated_step. intros He Hp Hk.
  rewrite bind_trace, bind_state, sent_app.
  rewrite (sent_quiet sg _ (He _)). cbn [app].
  specialize (Hk (value_of (m s))). rewrite Hp in Hk. exact Hk.
Qed.

Lemma gated_quiet {A : Type} (sg : signal) (v : Z) (m : M A) :
  emits_only (quiet sg) m -> preserves (cache sg) m -> gated sg v m.
Proof. intros He Hp s. apply gated_at_quiet; assumption. Qed.

Lemma gated_bind_l {A B : Type} (sg : signal) (v : Z) (m : M A) (k : A -> M B) :
  gated sg v m ->
  (forall a, emits_only (quiet sg) (k a)) ->
  (forall a, preserves (cache sg) (k a)) ->
  gated sg v (bind m k).
Proof. intros Hm He Hp s. apply gated_at_bind_l; auto. Qed.

Lemma gated_bind_r {A B : Type} (sg : signal) (v : Z) (m : M A) (k : A -> M B) :
  emits_only (quiet sg) m ->
  preserves (cache sg) m ->
  (forall a, gated sg v (k a)) ->
  gated sg v (bind m k).
Proof. intros He Hp Hk s. apply gated_at_bind_r; auto. intros a. apply Hk. Qed.

Lemma gated_if {A : Type} (sg : signal) (v : Z) (b : bool) (m1 m2 : M A) :
  gated sg v m1 -> gated sg v m2 -> gated sg v (if b then m1 else m2).
Proof. destruct b; auto. Qed.

Lemma gated_ret {A : Type} (sg : signal) (v : Z) (a : A) : gated sg v (ret a).
Proof. apply gated_quiet; auto with sketch. Qed.

Lemma gated_modify (sg : signal) (v : Z) (f : state -> state) :
  (forall s, cache sg (f s) = cache sg s) -> gated sg v (modify f).
Proof. intros H. apply gated_quiet; auto with sketch. Qed.

(** One test-and-send of a sender: the shape shared by lines 334-342,
    348-356, 362-370 and 371-379. *)
Lemma gate_and_send_gated (sg : signal) (v : Z) (set : Z -> state -> state) (e : event) :
  (forall s, cache sg (set v s) = v) ->
  carries sg e = Some v ->
  0 <= threshold sg < 32767 ->
  sendable sg v ->
  gated sg v
    (cur <- gets (cache sg) ;;
     if threshold sg <? CInt.abs (CInt.int16 (cur - v)) then
       modify (set v) ;; emit e
     else ret tt).
Proof.
  intros Hset Hc Ht Hs s. unfold gated_at, gated_step.
  unfold bind, gets, modify, emit, ret, state_of, trace_of.
  destruct (threshold sg <? CInt.abs (CInt.int16 (cache sg s - v))) eqn:E; cbn.
  - right. unfold sent. cbn. rewrite Hc. cbn.
    split; [reflexivity | split; [apply Hset | split; [| exact Hs]]].
    apply abs_gate; assumption.
  - left. split; reflexivity.
Qed.

Lemma sendPitchBend_gated (pb : Z) : gated PitchBend pb (sendPitchBend pb DEBUG).
Proof.
  open_senders. destruct (Z.eqb_spec (-1) pb) as [E | E]; cbn [negb];
    [apply gated_ret |].
  apply (gate_and_send_gated PitchBend pb set_currentPitchBend (MidiPitchBend pb));
    [reflexivity | reflexivity | vm_compute; intuition discriminate |].
  cbn. congruence.
Qed.

Lemma sendBreathController_gated (v chan : Z) :
  gated Breath v (sendBreathController v chan DEBUG).
Proof.
  open_senders.
  apply (gate_and_send_gated Breath v set_currentVolume (MidiCC chan MIDI_BREATH_CC v));
    [reflexivity | reflexivity | vm_compute; intuition discriminate | exact I].
Qed.

Lemma sendXYControllers_gated_x (x y chan : Z) :
  gated XAxis (CInt.int16 (CInt.map x 0 1024 0 127)) (sendXYControllers x y chan DEBUG).
Proof.
  open_senders. cbv zeta. apply gated_bind_l; [| auto 10 with sketch ..].
  apply (gate_and_send_gated XAxis _ set_currentXValue (MidiCC chan X_CC _));
    [reflexivity | reflexivity | vm_compute; intuition discriminate | exact I].
Qed.

Lemma sendXYControllers_gated_y (x y chan : Z) :
  gated YAxis (CInt.int16 (CInt.map y 0 1024 0 127)) (sendXYControllers x y chan DEBUG).
Proof.
  open_senders. cbv zeta. apply gated_bind_r; [auto 10 with sketch .. |].
  intros _.
  apply (gate_and_send_gated YAxis _ set_currentYValue (MidiCC chan Y_CC _));
    [reflexivity | reflexivity | vm_compute; intuition discriminate | exact I].
Qed.

(** Walks a chain of binds: the sender of the signal is gated, everything
    before and after it is quiet about the signal and keeps its cache. *)
Ltac solve_quiet := solve [auto 30 with sketch].

Ltac gated_chain :=
  cbv beta;
  lazymatch goal with
  | |- gated _ _ (if _ then _ else _) => apply gated_if; gated_chain
  | |- gated _ _ (bind _ _) =>
      first
        [ apply gated_bind_l;
          [ solve [ apply sendPitchBend_gated
                  | apply sendBreathController_gated
                  | apply sendXYControllers_gated_x
                  | apply sendXYControllers_gated_y ]
          | solve_quiet
          | solve_quiet ]
        | apply gated_bind_r; [ solve_quiet | solve_quiet | intros ?; gated_chain ] ]
  | |- gated _ _ (ret _) => apply gated_ret
  | |- _ => apply gated_quiet; solve_quiet
  end.

(** ** The three parts of [loop()] *)

Lemma allNotesOff_run (s : state) :
  allNotesOff s = (tt, s, all_notes_off_messages).
Proof. vm_compute. reflexivity. Qed.

Lemma loop_panic_run (r : readings) (s : state) :
  loop_panic r s = (tt, s, panic_messages r).
Proof.
  unfold loop_panic, panic_messages.
  destruct (digitalRead r PANIC_PIN =? 0); [apply allNotesOff_run | reflexivity].
Qed.

Lemma loop_meta_run (r : readings) (s : state) :
  loop_meta r s = (tt, meta_update r s, meta_messages r s).
Proof.
  unfold loop_meta, meta_update, meta_messages, meta_released.
  destruct (digitalRead r META_SW_PIN =? 0); [reflexivity |].
  unfold bind, gets. destruct (metaMode s); reflexivity.
Qed.

Lemma loop_run (r : readings) (s : state) :
  loop r s =
  (tt, state_of (loop_notes r (meta_update r s)),
   panic_messages r ++ meta_messages r s ++ trace_of (loop_notes r (meta_update r s))).
Proof.
  unfold loop, bind. rewrite loop_panic_run, loop_meta_run.
  rewrite (run_result (loop_notes r) (meta_update r s)) at 1. reflexivity.
Qed.

Lemma loop_state (r : readings) (s : state) :
  state_of (loop r s) = state_of (loop_notes r (meta_update r s)).
Proof. rewrite loop_run. reflexivity. Qed.

Lemma loop_trace (r : readings) (s : state) :
  trace_of (loop r s) =
  panic_messages r ++ meta_messages r s ++ trace_of (loop_notes r (meta_update r s)).
Proof. rewrite loop_run. reflexivity. Qed.

(** The note machine never touches the meta variables or the quantization
    mode, and sends nothing on channel 1. *)
Lemma loop_notes_preserves {B : Type} (f : state -> B) (r : readings) :
  (forall v s, f (set_currentNote v s) = f s) ->
  (forall v s, f (set_currentPitchBend v s) = f s) ->
  (forall v s, f (set_currentVolume v s) = f s) ->
  (forall v s, f (set_currentXValue v s) = f s) ->
  (forall v s, f (set_currentYValue v s) = f s) ->
  (forall v s, f (set_ccSendTime v s) = f s) ->
  preserves f (loop_notes r).
Proof.
  intros H1 H2 H3 H4 H5 H6. unfold loop_notes. cbv zeta.
  auto 30 with sketch.
Qed.

Lemma loop_notes_emits (P : event -> bool) (r : readings) :
  (forall n v, P (MidiNoteOn 0 n v) = true) ->
  (forall n v, P (MidiNoteOff 0 n v) = true) ->
  (forall v, P (MidiPitchBend v) = true) ->
  (forall cc v, P (MidiCC 0 cc v) = true) ->
  emits_only P (loop_notes r).
Proof.
  intros H1 H2 H3 H4. unfold loop_notes. cbv zeta.
  auto 30 with sketch.
Qed.

(** ** Every pass through [loop()] is a gated step for every signal *)

Lemma gated_at_bind_gets {A B : Type} (sg : signal) (v : Z)
      (f : state -> A) (k : A -> M B) (s : state) :
  gated_at sg v (k (f s)) s -> gated_at sg v (bind (gets f) k) s.
Proof.
  unfold gated_at. rewrite bind_trace, bind_state. exact (fun H => H).
Qed.

Lemma loop_notes_gated (sg : signal) (r : readings) (s : state) :
  gated_at sg (candidate sg r s) (loop_notes r) s.
Proof.
  unfold loop_notes. cbv zeta.
  do 3 (apply gated_at_bind_gets; cbv beta).
  match goal with
  | |- gated_at ?g ?v ?m ?st => enough (H : gated g v m) by (apply H)
  end.
  destruct sg; cbn [candidate]; gated_chain.
Qed.

Lemma candidate_quant_mode (sg : signal) (r : readings) (s1 s2 : state) :
  slide_quant_mode s1 = slide_quant_mode s2 ->
  candidate sg r s1 = candidate sg r s2.
Proof.
  intros H. destruct sg; cbn [candidate]; [| reflexivity ..].
  unfold getPitchBend, getPitchBendFromLinearPot.
  rewrite H. reflexivity.
Qed.

Lemma meta_update_fields (r : readings) (s : state) :
  currentNote (meta_update r s) = currentNote s /\
  slide_quant_mode (meta_update r s) = slide_quant_mode s /\
  ccSendTime (meta_update r s) = ccSendTime s /\
  forall sg, cache sg (meta_update r s) = cache sg s.
Proof.
  unfold meta_update.
  destruct (digitalRead r META_SW_PIN =? 0); [| destruct (metaMode s)];
    repeat split; intros []; reflexivity.
Qed.

Lemma panic_messages_quiet (sg : signal) (r : readings) :
  sent sg (panic_messages r) = [].
Proof.
  unfold panic_messages.
  destruct (digitalRead r PANIC_PIN =? 0); [| reflexivity].
  destruct sg; vm_compute; reflexivity.
Qed.

Lemma meta_messages_quiet (sg : signal) (r : readings) (s : state) :
  sent sg (meta_messages r s) = [].
Proof.
  unfold meta_messages. destruct (meta_released r s); destruct sg; reflexivity.
Qed.

Lemma loop_gated (sg : signal) (r : readings) (s : state) :
  gated_step sg (candidate sg r s) s (state_of (loop r s)) (trace_of (loop r s)).
Proof.
  pose proof (loop_notes_gated sg r (meta_update r s)) as H.
  destruct (meta_update_fields r s) as (_ & Hq & _ & Hc).
  rewrite (candidate_quant_mode sg r _ s Hq) in H.
  unfold gated_at, gated_step in H. rewrite Hc in H.
  unfold gated_step.
  rewrite loop_state, loop_trace, !sent_app.
  rewrite panic_messages_quiet, meta_messages_quiet. exact H.
Qed.

(** ** Panic *)

Lemma note_numbers_spec (n : Z) : In n note_numbers <-> 0 <= n <= 127.
Proof.
  unfold note_numbers. rewrite in_map_iff. split.
  - intros (k & <- & Hk). apply in_seq in Hk. lia.
  - intros H. exists (Z.to_nat n). split; [lia |]. apply in_seq. lia.
Qed.

Lemma note_numbers_NoDup : NoDup note_numbers.
Proof.
  unfold note_numbers. apply Injective_map_NoDup.
  - intros a b. apply Nat2Z.inj.
  - apply seq_NoDup.
Qed.

Lemma all_notes_off_messages_NoDup : NoDup all_notes_off_messages.
Proof.
  unfold all_notes_off_messages. apply Injective_map_NoDup.
  - intros a b H. congruence.
  - apply note_numbers_NoDup.
Qed.

Lemma loop_with_panic_pin (level : Z) (r : readings) (s : state) :
  state_of (loop (with_pin PANIC_PIN level r) s) = state_of (loop r s) /\
  trace_of (loop (with_pin PANIC_PIN level r) s) =
  panic_messages (with_pin PANIC_PIN level r) ++
  meta_messages r s ++ trace_of (loop_notes r (meta_update r s)).
Proof.
  rewrite !loop_state, !loop_trace. split; reflexivity.
Qed.

(** C1, as the code has it.  On a pass where the panic pin reads low,
    [loop()] first sends the note-offs of [allNotesOff()]: one message per
    note number 0..127, each on channel 1 at velocity 0, in ascending order
    and nothing else among them.  It then goes on with the meta switch and
    the note machine exactly as on the same pass with the panic pin high:
    the messages that follow and the state left behind are those of that
    pass. *)
Theorem loop_panic_then_rest (r : readings) (s : state) :
  digitalRead r PANIC_PIN = 0 ->
  trace_of (loop r s) =
    all_notes_off_messages ++ trace_of (loop (with_pin PANIC_PIN 1 r) s) /\
  state_of (loop r s) = state_of (loop (with_pin PANIC_PIN 1 r) s) /\
  all_notes_off_messages = List.map (fun n => MidiNoteOff 1 n 0) note_numbers /\
  (forall n, In n note_numbers <-> 0 <= n <= 127) /\
  NoDup all_notes_off_messages /\
  List.length all_notes_off_messages = 128%nat.
Proof.
  intros Hp.
  destruct (loop_with_panic_pin 1 r s) as [Hs Ht].
  rewrite Hs, Ht, loop_trace.
  unfold panic_messages at 1. rewrite Hp. cbn [Z.eqb].
  split; [reflexivity |]. split; [reflexivity |]. split; [reflexivity |].
  split; [intros n; apply note_numbers_spec |].
  split; [apply all_notes_off_messages_NoDup | reflexivity].
Qed.

Lemma loop_panic_then_rest_witness :
  trace_of (loop panic_with_breath initial_state) =
    all_notes_off_messages ++
    trace_of (loop (with_pin PANIC_PIN 1 panic_with_breath) initial_state) /\
  state_of (loop panic_with_breath initial_state) =
    state_of (loop (with_pin PANIC_PIN 1 panic_with_breath) initial_state).
Proof.
  destruct (loop_panic_then_rest panic_with_breath initial_state) as (H1 & H2 & _).
  - reflexivity.
  - split; [exact H1 | exact H2].
Defined.

(** C1 as stated fails: with panic pressed while the player blows on the
    open chord, the 128 note-offs are followed by a breath controller
    message and a note-on, and the note machine moves to the fundamental. *)
Lemma loop_panic_sends_more :
  digitalRead panic_with_breath PANIC_PIN = 0 /\
  trace_of (loop panic_with_breath initial_state) =
    all_notes_off_messages ++ [MidiCC 0 2 5; MidiNoteOn 0 48 127] /\
  trace_of (loop panic_with_breath initial_state) <> all_notes_off_messages /\
  currentNote initial_state = -1 /\
  currentNote (state_of (loop panic_with_breath initial_state)) = 48.
Proof.
  repeat split; try (vm_compute; reflexivity).
  intros H. apply (f_equal (@List.length event)) in H.
  vm_compute in H. discriminate.
Qed.

(** ** The meta switch *)

(** Unfolds the note machine down to its tests. *)
Ltac open_loop_notes :=
  cbv beta iota zeta delta
    [loop_notes bind gets modify ret emit state_of trace_of value_of
     sendNoteOn sendNoteOff sendPitchBend sendBreathController
     sendXYControllers DEBUG getMIDINote getPitchBend getPitchBendFromLinearPot
     set_currentNote set_currentPitchBend set_currentVolume set_currentXValue
     set_currentYValue set_ccSendTime
     currentNote currentPitchBend currentVolume currentXValue currentYValue
     slide_quant_mode metaMode metaValue ccSendTime fst snd app].

Ltac split_tests :=
  repeat (open_loop_notes;
          match goal with
          | |- context [if ?c then _ else _] => destruct c
          end).

(** The note machine neither reads nor writes the meta variables. *)
Lemma loop_notes_meta_blind (r : readings) (s1 s2 : state) :
  same_notes s1 s2 ->
  trace_of (loop_notes r s1) = trace_of (loop_notes r s2) /\
  same_notes (state_of (loop_notes r s1)) (state_of (loop_notes r s2)).
Proof.
  destruct s1 as [n1 pb1 v1 x1 y1 q1 mm1 mv1 t1].
  destruct s2 as [n2 pb2 v2 x2 y2 q2 mm2 mv2 t2].
  unfold same_notes. cbn.
  intros (-> & -> & -> & -> & -> & -> & ->).
  split_tests; repeat split; reflexivity.
Qed.

Lemma filter_none {A : Type} (P : A -> bool) (l : list A) :
  forallb (fun a => negb (P a)) l = true -> filter P l = [].
Proof.
  induction l as [| a l IH]; intros H; [reflexivity |].
  cbn in H. apply andb_true_iff in H. destruct H as [Ha Hl].
  cbn. destruct (P a); [discriminate | apply IH, Hl].
Qed.

Lemma panic_messages_no_command (r : readings) :
  filter is_command (panic_messages r) = [].
Proof.
  unfold panic_messages.
  destruct (digitalRead r PANIC_PIN =? 0); vm_compute; reflexivity.
Qed.

Lemma loop_notes_no_command (r : readings) (s : state) :
  filter is_command (trace_of (loop_notes r s)) = [].
Proof.
  apply filter_none.
  apply (loop_notes_emits (fun e => negb (is_command e)) r); intros; reflexivity.
Qed.

Lemma loop_notes_keeps_meta (r : readings) (s : state) :
  metaMode (state_of (loop_notes r s)) = metaMode s /\
  metaValue (state_of (loop_notes r s)) = metaValue s.
Proof.
  split.
  - apply (loop_notes_preserves metaMode r); intros; reflexivity.
  - apply (loop_notes_preserves metaValue r); intros; reflexivity.
Qed.

(** C2, as the code has it.  On a pass where the meta pin reads low, the
    chord pattern is recorded in [metaValue], [metaMode] is set and no
    command is sent; the same chord input is still decoded and used by the
    note machine: the messages of the pass, and every variable of the note
    machine after it, are those of the same pass with the meta pin high and
    meta mode off. *)
Theorem loop_meta_held_still_selects (r : readings) (s : state) :
  digitalRead r META_SW_PIN = 0 ->
  metaMode (state_of (loop r s)) = true /\
  metaValue (state_of (loop r s)) = getRawOvertoneSwitchValue r /\
  filter is_command (trace_of (loop r s)) = [] /\
  trace_of (loop r s) =
    trace_of (loop (with_pin META_SW_PIN 1 r) (set_metaMode false s)) /\
  same_notes (state_of (loop r s))
             (state_of (loop (with_pin META_SW_PIN 1 r) (set_metaMode false s))).
Proof.
  intros Hm.
  assert (Hu : meta_update r s =
               set_metaValue (getRawOvertoneSwitchValue r) (set_metaMode true s)).
  { unfold meta_update. rewrite Hm. reflexivity. }
  assert (Hmsg : meta_messages r s = []).
  { unfold meta_messages, meta_released. rewrite Hm. reflexivity. }
  assert (Hsame : same_notes (meta_update r s) (set_metaMode false s)).
  { rewrite Hu. unfold same_notes. repeat split; reflexivity. }
  destruct (loop_notes_meta_blind r _ _ Hsame) as [Ht Hs].
  destruct (loop_notes_keeps_meta r (meta_update r s)) as [Hmm Hmv].
  rewrite !loop_state, !loop_trace, Hmsg.
  change (meta_update (with_pin META_SW_PIN 1 r) (set_metaMode false s))
    with (set_metaMode false s).
  change (meta_messages (with_pin META_SW_PIN 1 r) (set_metaMode false s))
    with (@nil event).
  change (panic_messages (with_pin META_SW_PIN 1 r)) with (panic_messages r).
  change (loop_notes (with_pin META_SW_PIN 1 r)) with (loop_notes r).
  cbn [app].
  split; [rewrite Hmm, Hu; reflexivity |].
  split; [rewrite Hmv, Hu; reflexivity |].
  split; [rewrite filter_app, panic_messages_no_command, loop_notes_no_command;
          reflexivity |].
  split; [rewrite Ht; reflexivity | exact Hs].
Qed.

Lemma loop_meta_held_still_selects_witness :
  metaValue (state_of (loop meta_held_chord_0001 initial_state)) =
    getRawOvertoneSwitchValue meta_held_chord_0001 /\
  trace_of (loop meta_held_chord_0001 initial_state) =
    trace_of (loop (with_pin META_SW_PIN 1 meta_held_chord_0001)
                   (set_metaMode false initial_state)).
Proof.
  destruct (loop_meta_held_still_selects meta_held_chord_0001 initial_state)
    as (_ & H2 & _ & H4 & _).
  - reflexivity.
  - split; [exact H2 | exact H4].
Defined.

(** C2 as stated fails: with the meta switch held on both passes, the chord
    0b0000 starts the fundamental and the chord 0b0001 starts the first
    overtone. *)
Lemma loop_meta_held_chord_selects_note :
  digitalRead meta_held_chord_0000 META_SW_PIN = 0 /\
  digitalRead meta_held_chord_0001 META_SW_PIN = 0 /\
  trace_of (loop meta_held_chord_0000 initial_state) =
    [MidiCC 0 2 5; MidiNoteOn 0 48 127] /\
  trace_of (loop meta_held_chord_0001 initial_state) =
    [MidiCC 0 2 5; MidiNoteOn 0 55 127] /\
  currentNote (state_of (loop meta_held_chord_0000 initial_state)) = 48 /\
  currentNote (state_of (loop meta_held_chord_0001 initial_state)) = 55.
Proof.
  repeat split; vm_compute; reflexivity.
Qed.

(** C3, as the code has it.  On a pass where the meta pin reads high while
    [metaMode] is set, [loop()] sends exactly one command, a note-on on
    channel 1 at velocity 127 whose note number is the recorded chord
    pattern [metaValue], right after the panic part and before the note
    machine; [metaMode] is false afterwards, and [metaValue] keeps the
    recorded pattern. *)
Theorem loop_meta_release_sends_command (r : readings) (s : state) :
  digitalRead r META_SW_PIN <> 0 ->
  metaMode s = true ->
  metaMode (state_of (loop r s)) = false /\
  metaValue (state_of (loop r s)) = metaValue s /\
  filter is_command (trace_of (loop r s)) = [MidiNoteOn 1 (metaValue s) 127] /\
  trace_of (loop r s) =
    panic_messages r ++
    MidiNoteOn 1 (metaValue s) 127 :: trace_of (loop_notes r (set_metaMode false s)).
Proof.
  intros Hm Hmode. apply Z.eqb_neq in Hm.
  assert (Hu : meta_update r s = set_metaMode false s).
  { unfold meta_update. rewrite Hm, Hmode. reflexivity. }
  assert (Hmsg : meta_messages r s = [MidiNoteOn 1 (metaValue s) 127]).
  { unfold meta_messages, meta_released. rewrite Hm, Hmode. reflexivity. }
  destruct (loop_notes_keeps_meta r (meta_update r s)) as [Hmm Hmv].
  rewrite loop_state, loop_trace, Hmsg, Hmm, Hmv, Hu.
  split; [reflexivity |]. split; [reflexivity |].
  split; [| reflexivity].
  rewrite filter_app, panic_messages_no_command. cbn [app filter is_command Z.eqb].
  rewrite loop_notes_no_command. reflexivity.
Qed.

Lemma loop_meta_release_sends_command_witness :
  metaMode (state_of (loop all_released meta_pending)) = false /\
  metaValue (state_of (loop all_released meta_pending)) = metaValue meta_pending /\
  filter is_command (trace_of (loop all_released meta_pending)) =
    [MidiNoteOn 1 (metaValue meta_pending) 127].
Proof.
  destruct (loop_meta_release_sends_command all_released meta_pending)
    as (H1 & H2 & H3 & _).
  - vm_compute. discriminate.
  - reflexivity.
  - split; [exact H1 | split; [exact H2 | exact H3]].
Defined.

(** C3 as stated fails: after the release the recorded chord pattern is
    still 3, not the cleared value 0 it had at start-up. *)
Lemma loop_meta_release_keeps_value :
  digitalRead all_released META_SW_PIN <> 0 /\
  metaMode meta_pending = true /\
  metaValue meta_pending = 3 /\
  trace_of (loop all_released meta_pending) = [MidiNoteOn 1 3 127] /\
  metaValue (state_of (loop all_released meta_pending)) = 3 /\
  metaValue (state_of (loop all_released meta_pending)) <> metaValue initial_state.
Proof.
  repeat split; try (vm_compute; reflexivity); vm_compute; discriminate.
Qed.

(** ** The note machine *)

Lemma bind_gets_run {A B : Type} (f : state -> A) (k : A -> M B) (s : state) :
  bind (gets f) k s = k (f s) s.
Proof.
  unfold bind, gets. destruct (k (f s) s) as [[b s2] o2]. reflexivity.
Qed.

Ltac read_globals :=
  unfold loop_notes; cbv zeta;
  repeat (rewrite bind_gets_run; cbv beta).

(** Lines 422-425: a sounding note and no breath. *)
Lemma loop_notes_breath_stopped (r : readings) (s : state) :
  currentNote s <> -1 ->
  getVolume r = 0 ->
  loop_notes r s = (tt, set_currentNote (-1) s, [MidiNoteOff 0 (currentNote s) 0]).
Proof.
  intros Hn Hv. read_globals. rewrite Hv.
  destruct (Z.eqb_spec (-1) (currentNote s)) as [E | _]; [congruence |].
  reflexivity.
Qed.

(** Lines 444-452: a sounding note, breath, and no overtone decoded. *)
Lemma loop_notes_hold (r : readings) (s : state) :
  currentNote s <> -1 ->
  getOvertoneFromOvertoneSwitches r = -1 ->
  getVolume r <> 0 ->
  currentNote (state_of (loop_notes r s)) = currentNote s /\
  forallb is_controller_message (trace_of (loop_notes r s)) = true.
Proof.
  intros Hn Hd Hv. read_globals.
  replace (getMIDINote r s) with (currentNote s)
    by (unfold getMIDINote; rewrite Hd; reflexivity).
  destruct (Z.eqb_spec (-1) (currentNote s)) as [E | _]; [congruence |].
  destruct (Z.eqb_spec 0 (getVolume r)) as [E | _]; [congruence |].
  rewrite Z.eqb_refl. cbn [negb andb].
  split.
  - match goal with
    | |- currentNote (state_of (?m s)) = _ =>
        enough (H : preserves currentNote m) by apply H
    end.
    auto 30 with sketch.
  - match goal with
    | |- forallb _ (trace_of (?m s)) = true =>
        enough (H : emits_only is_controller_message m) by apply H
    end.
    auto 30 with sketch.
Qed.

Lemma controller_messages_no_note (out : list event) :
  forallb is_controller_message out = true -> filter is_note_message out = [].
Proof.
  induction out as [| e out IH]; intros H; [reflexivity |].
  cbn in H. apply andb_true_iff in H. destruct H as [He Ho].
  cbn. destruct e; try discriminate; cbn; apply IH, Ho.
Qed.

(** C5.  On a pass that starts with a note [n] sounding and decodes no
    overtone from the chord: if the mapped volume is not 0, [n] is still the
    sounding note afterwards and the note machine sends nothing but
    pitch-bend and controller messages (no note-off, no note-on), so that
    without panic and without a meta release the whole pass sends only
    those; if the mapped volume is 0 the note ends with its note-off.  The
    sounding note changes on such a pass only when the mapped volume is 0. *)
Theorem loop_holds_note_on_no_match (r : readings) (s : state) :
  currentNote s <> -1 ->
  getOvertoneFromOvertoneSwitches r = -1 ->
  (getVolume r <> 0 ->
   currentNote (state_of (loop r s)) = currentNote s /\
   trace_of (loop r s) =
     panic_messages r ++ meta_messages r s ++
     trace_of (loop_notes r (meta_update r s)) /\
   forallb is_controller_message (trace_of (loop_notes r (meta_update r s))) = true /\
   filter is_note_message (trace_of (loop_notes r (meta_update r s))) = [] /\
   (digitalRead r PANIC_PIN <> 0 -> meta_released r s = false ->
    forallb is_controller_message (trace_of (loop r s)) = true)) /\
  (getVolume r = 0 ->
   currentNote (state_of (loop r s)) = -1 /\
   trace_of (loop_notes r (meta_update r s)) = [MidiNoteOff 0 (currentNote s) 0]) /\
  (currentNote (state_of (loop r s)) <> currentNote s -> getVolume r = 0).
Proof.
  intros Hn Hd.
  destruct (meta_update_fields r s) as (Hcur & _).
  assert (Hhold : getVolume r <> 0 ->
                  currentNote (state_of (loop r s)) = currentNote s /\
                  forallb is_controller_message
                          (trace_of (loop_notes r (meta_update r s))) = true).
  { intros Hv. rewrite loop_state, <- Hcur.
    apply loop_notes_hold; [rewrite Hcur; exact Hn | exact Hd | exact Hv]. }
  split; [| split].
  - intros Hv. destruct (Hhold Hv) as [H1 H2].
    split; [exact H1 |]. split; [apply loop_trace |]. split; [exact H2 |].
    split; [apply controller_messages_no_note; exact H2 |].
    intros Hp Hm. rewrite loop_trace.
    unfold panic_messages, meta_messages.
    apply Z.eqb_neq in Hp. rewrite Hp, Hm. exact H2.
  - intros Hv. rewrite loop_state.
    rewrite loop_notes_breath_stopped by (rewrite ?Hcur; assumption).
    rewrite Hcur. split; reflexivity.
  - intros Hch. destruct (Z.eq_dec (getVolume r) 0) as [E | E]; [exact E |].
    destruct (Hhold E) as [H1 _]. contradiction.
Qed.

Lemma loop_holds_note_on_no_match_witness :
  currentNote (state_of (loop blow_chord_0101 sounding_fundamental)) =
    currentNote sounding_fundamental /\
  forallb is_controller_message
          (trace_of (loop blow_chord_0101 sounding_fundamental)) = true.
Proof.
  destruct (loop_holds_note_on_no_match blow_chord_0101 sounding_fundamental)
    as (H & _).
  - vm_compute. discriminate.
  - reflexivity.
  - destruct H as (H1 & _ & _ & _ & H4).
    + vm_compute. discriminate.
    + split; [exact H1 | apply H4].
      * vm_compute. discriminate.
      * reflexivity.
Defined.

(** C10.  On a pass with the panic pin high and no meta release, a note
    sounding and a mapped volume of 0, [loop()] sends exactly one message,
    the note-off of the sounding note at velocity 0 (on the note channel 0);
    the note machine is silent afterwards and the four cached values are
    unchanged. *)
Theorem loop_breath_stopped (r : readings) (s : state) :
  digitalRead r PANIC_PIN <> 0 ->
  meta_released r s = false ->
  currentNote s <> -1 ->
  getVolume r = 0 ->
  trace_of (loop r s) = [MidiNoteOff 0 (currentNote s) 0] /\
  currentNote (state_of (loop r s)) = -1 /\
  currentPitchBend (state_of (loop r s)) = currentPitchBend s /\
  currentVolume (state_of (loop r s)) = currentVolume s /\
  currentXValue (state_of (loop r s)) = currentXValue s /\
  currentYValue (state_of (loop r s)) = currentYValue s.
Proof.
  intros Hp Hm Hn Hv. apply Z.eqb_neq in Hp.
  destruct (meta_update_fields r s) as (Hcur & _ & _ & Hc).
  rewrite loop_state, loop_trace.
  rewrite loop_notes_breath_stopped by (rewrite ?Hcur; assumption).
  unfold panic_messages, meta_messages. rewrite Hp, Hm, Hcur.
  split; [reflexivity |]. split; [reflexivity |].
  cbn [state_of fst snd set_currentNote currentPitchBend currentVolume
       currentXValue currentYValue].
  exact (conj (Hc PitchBend) (conj (Hc Breath) (conj (Hc XAxis) (Hc YAxis)))).
Qed.

Lemma loop_breath_stopped_witness :
  trace_of (loop all_released sounding_fundamental) =
    [MidiNoteOff 0 (currentNote sounding_fundamental) 0] /\
  currentNote (state_of (loop all_released sounding_fundamental)) = -1 /\
  currentPitchBend (state_of (loop all_released sounding_fundamental)) =
    currentPitchBend sounding_fundamental.
Proof.
  destruct (loop_breath_stopped all_released sounding_fundamental)
    as (H1 & H2 & H3 & _).
  - vm_compute. discriminate.
  - reflexivity.
  - vm_compute. discriminate.
  - reflexivity.
  - split; [exact H1 | split; [exact H2 | exact H3]].
Defined.

(** ** The change gate over whole runs *)

Lemma last_or_app (d : Z) (l1 l2 : list Z) :
  last_or d (l1 ++ l2) = last_or (last_or d l1) l2.
Proof.
  unfold last_or. revert d l1. induction l2 as [| b l2 IH]; intros d l1.
  - rewrite app_nil_r. reflexivity.
  - replace (l1 ++ b :: l2) with ((l1 ++ [b]) ++ l2)
      by (rewrite <- app_assoc; reflexivity).
    rewrite IH, last_last.
    change (b :: l2) with ([b] ++ l2).
    rewrite (IH _ [b]). reflexivity.
Qed.

Lemma gated_step_tracks (sg : signal) (v : Z) (s s' : state) (out : list event) :
  gated_step sg v s s' out -> cache sg s' = last_or (cache sg s) (sent sg out).
Proof.
  intros [[Hs Hc] | (Hs & Hc & _)]; rewrite Hs, Hc; reflexivity.
Qed.

Lemma threshold_nonneg (sg : signal) : 0 <= threshold sg.
Proof. destruct sg; vm_compute; discriminate. Qed.

Lemma tracks_ret {A : Type} (a : A) : tracks (ret a).
Proof. intros sg s. reflexivity. Qed.

Lemma tracks_bind {A B : Type} (m : M A) (k : A -> M B) :
  tracks m -> (forall a, tracks (k a)) -> tracks (bind m k).
Proof.
  intros Hm Hk sg s.
  rewrite bind_state, bind_trace, sent_app, last_or_app, Hk, Hm. reflexivity.
Qed.

Lemma tracks_quiet {A : Type} (m : M A) :
  (forall sg, emits_only (quiet sg) m) ->
  (forall sg, preserves (cache sg) m) ->
  tracks m.
Proof.
  intros He Hp sg s.
  apply (gated_step_tracks sg 0). apply gated_at_quiet; auto.
Qed.

Lemma loop_tracks (r : readings) : tracks (loop r).
Proof.
  intros sg s. apply (gated_step_tracks sg (candidate sg r s)), loop_gated.
Qed.

Lemma run_tracks (rs : list readings) : tracks (run rs).
Proof.
  induction rs as [| r rs IH]; cbn [run].
  - apply tracks_ret.
  - apply tracks_bind; [apply loop_tracks | intros _; exact IH].
Qed.

Lemma loop_quant_mode (r : readings) (s : state) :
  slide_quant_mode (state_of (loop r s)) = slide_quant_mode s.
Proof.
  destruct (meta_update_fields r s) as (_ & Hq & _).
  rewrite loop_state, <- Hq.
  apply (loop_notes_preserves slide_quant_mode r); intros; reflexivity.
Qed.

Lemma run_cons_state (r : readings) (rs : list readings) (s : state) :
  state_of (run (r :: rs) s) = state_of (run rs (state_of (loop r s))).
Proof. exact (bind_state (loop r) (fun _ => run rs) s). Qed.

Lemma run_cons_trace (r : readings) (rs : list readings) (s : state) :
  trace_of (run (r :: rs) s) =
  trace_of (loop r s) ++ trace_of (run rs (state_of (loop r s))).
Proof. exact (bind_trace (loop r) (fun _ => run rs) s). Qed.

Lemma run_quant_mode (rs : list readings) (s : state) :
  slide_quant_mode (state_of (run rs s)) = slide_quant_mode s.
Proof.
  revert s. induction rs as [| r rs IH]; intros s; [reflexivity |].
  rewrite run_cons_state, IH. apply loop_quant_mode.
Qed.

Lemma candidate_same_reading (sg : signal) (r1 r2 : readings) (s : state) :
  same_reading sg r1 r2 -> candidate sg r1 s = candidate sg r2 s.
Proof.
  unfold same_reading. intros H. destruct sg; cbn [candidate pin_of] in *.
  - unfold getPitchBend, getPitchBendFromLinearPot. rewrite H. reflexivity.
  - unfold getVolume, getVolumeFromBreathSensor. rewrite H. reflexivity.
  - unfold getXValue. rewrite H. reflexivity.
  - unfold getYValue. rewrite H. reflexivity.
Qed.

(** Passes that all offer the value [c] for a signal send it at most once,
    and not at all when the cache already holds it. *)
Lemma run_same_candidate (sg : signal) (c : Z) (rs : list readings) (s : state) :
  (forall r, In r rs -> candidate sg r s = c) ->
  (List.length (sent sg (trace_of (run rs s))) <= 1)%nat /\
  (cache sg s = c -> sent sg (trace_of (run rs s)) = []).
Proof.
  revert s. induction rs as [| r rs IH]; intros s Hc.
  - split; [cbn; lia | reflexivity].
  - rewrite run_cons_trace, sent_app.
    assert (Hr : candidate sg r s = c) by (apply Hc; left; reflexivity).
    destruct (IH (state_of (loop r s))) as [IH1 IH2].
    { intros r' Hin.
      rewrite (candidate_quant_mode sg r' _ s (loop_quant_mode r s)).
      apply Hc. right. exact Hin. }
    pose proof (loop_gated sg r s) as Hg. rewrite Hr in Hg.
    pose proof (threshold_nonneg sg) as Ht.
    destruct Hg as [[Hs Hk] | (Hs & Hk & Hd & _)]; rewrite Hs.
    + split; [exact IH1 |]. intros E. apply IH2. rewrite Hk. exact E.
    + rewrite (IH2 Hk). split; [cbn; lia |].
      intros E. rewrite E in Hd. rewrite Z.sub_diag in Hd. cbn in Hd. lia.
Qed.

(** Passes whose offered values all stay within the threshold of the cached
    value send nothing for the signal. *)
Lemma run_within_threshold (sg : signal) (rs : list readings) (s : state) :
  (forall r, In r rs -> Z.abs (candidate sg r s - cache sg s) <= threshold sg) ->
  sent sg (trace_of (run rs s)) = [] /\
  cache sg (state_of (run rs s)) = cache sg s.
Proof.
  revert s. induction rs as [| r rs IH]; intros s Hc.
  - split; reflexivity.
  - rewrite run_cons_trace, run_cons_state, sent_app.
    pose proof (loop_gated sg r s) as Hg.
    assert (Hr : Z.abs (candidate sg r s - cache sg s) <= threshold sg)
      by (apply Hc; left; reflexivity).
    destruct Hg as [[Hs Hk] | (_ & _ & Hd & _)]; [| lia].
    destruct (IH (state_of (loop r s))) as [IH1 IH2].
    { intros r' Hin.
      rewrite (candidate_quant_mode sg r' _ s (loop_quant_mode r s)), Hk.
      apply Hc. right. exact Hin. }
    rewrite Hs, IH1, IH2, Hk. split; reflexivity.
Qed.

(** C6.  After any run of passes, a message carrying a value [v] of a gated
    signal (pitch bend, breath, X, Y) is sent by the next pass only when [v]
    is the value offered on that pass and differs by more than the signal's
    threshold from the value last transmitted for it (from the cache's
    initial value when none was).  Hence passes that all read the same raw
    value for the signal send at most one message for it, and passes whose
    offered values stay within the threshold of the cached value send
    none. *)
Theorem change_gate (sg : signal) :
  (forall rs r s e v,
      In e (trace_of (loop r (state_of (run rs s)))) ->
      carries sg e = Some v ->
      v = candidate sg r s /\
      cache sg (state_of (run rs s)) =
        last_or (cache sg s) (sent sg (trace_of (run rs s))) /\
      threshold sg <
        Z.abs (v - last_or (cache sg s) (sent sg (trace_of (run rs s))))) /\
  (forall rs r0 s,
      (forall r, In r rs -> same_reading sg r r0) ->
      (List.length (sent sg (trace_of (run rs s))) <= 1)%nat) /\
  (forall rs s,
      (forall r, In r rs ->
                 Z.abs (candidate sg r s - cache sg s) <= threshold sg) ->
      sent sg (trace_of (run rs s)) = []).
Proof.
  split; [| split].
  - intros rs r s e v Hin Hc.
    pose proof (loop_gated sg r (state_of (run rs s))) as Hg.
    pose proof (sent_In sg _ e v Hin Hc) as Hv.
    rewrite (candidate_quant_mode sg r _ s (run_quant_mode rs s)) in Hg.
    rewrite <- (run_tracks rs sg s).
    destruct Hg as [[Hs _] | (Hs & _ & Hd & _)]; rewrite Hs in Hv.
    + destruct Hv.
    + destruct Hv as [E | []]. subst v. repeat split. exact Hd.
  - intros rs r0 s Hsame.
    apply (run_same_candidate sg (candidate sg r0 s) rs s).
    intros r Hin. apply candidate_same_reading, Hsame, Hin.
  - intros rs s H. apply (run_within_threshold sg rs s H).
Qed.

Lemma change_gate_witness :
  (MidiPitchBend 5965 = MidiPitchBend (candidate PitchBend blow_chord_0000 initial_state) /\
   10 < Z.abs (5965 - 8191)) /\
  (List.length
     (sent PitchBend
           (trace_of (run [blow_chord_0000; blow_chord_0000; blow_chord_0000]
                          initial_state))) <= 1)%nat /\
  sent Breath (trace_of (run [all_released; all_released] initial_state)) = [].
Proof.
  destruct (change_gate PitchBend) as (HA & HB & _).
  destruct (change_gate Breath) as (_ & _ & HC).
  split; [| split].
  - destruct (HA [] blow_chord_0000 initial_state (MidiPitchBend 5965) 5965)
      as (E & _ & Hd).
    + vm_compute. tauto.
    + reflexivity.
    + split; [rewrite <- E; reflexivity | exact Hd].
  - apply (HB _ blow_chord_0000). intros r Hin.
    cbn in Hin. destruct Hin as [<- | [<- | [<- | []]]]; reflexivity.
  - apply HC. intros r Hin.
    cbn in Hin. destruct Hin as [<- | [<- | []]]; vm_compute; discriminate.
Defined.

(** ** The caches and what was transmitted *)

Lemma sendPitchBend_tracks (pb : Z) : tracks (sendPitchBend pb DEBUG).
Proof.
  intros sg s. destruct sg.
  - exact (gated_step_tracks _ _ _ _ _ (sendPitchBend_gated pb s)).
  - apply (gated_step_tracks _ 0), gated_at_quiet; solve_quiet.
  - apply (gated_step_tracks _ 0), gated_at_quiet; solve_quiet.
  - apply (gated_step_tracks _ 0), gated_at_quiet; solve_quiet.
Qed.

Lemma sendBreathController_tracks (v chan : Z) :
  tracks (sendBreathController v chan DEBUG).
Proof.
  intros sg s. destruct sg.
  - apply (gated_step_tracks _ 0), gated_at_quiet; solve_quiet.
  - exact (gated_step_tracks _ _ _ _ _ (sendBreathController_gated v chan s)).
  - apply (gated_step_tracks _ 0), gated_at_quiet; solve_quiet.
  - apply (gated_step_tracks _ 0), gated_at_quiet; solve_quiet.
Qed.

Lemma sendXYControllers_tracks (x y chan : Z) :
  tracks (sendXYControllers x y chan DEBUG).
Proof.
  intros sg s. destruct sg.
  - apply (gated_step_tracks _ 0), gated_at_quiet; solve_quiet.
  - apply (gated_step_tracks _ 0), gated_at_quiet; solve_quiet.
  - exact (gated_step_tracks _ _ _ _ _ (sendXYControllers_gated_x x y chan s)).
  - exact (gated_step_tracks _ _ _ _ _ (sendXYControllers_gated_y x y chan s)).
Qed.

Lemma note_senders_track :
  (forall note vel chan, tracks (sendNoteOn note vel chan DEBUG)) /\
  (forall note vel chan, tracks (sendNoteOff note vel chan DEBUG)) /\
  tracks allNotesOff /\
  (forall chan value, tracks (sendMetaCommand chan value)).
Proof.
  repeat split; intros; apply tracks_quiet; intros sg; destruct sg;
    unfold allNotesOff, sendMetaCommand, DEBUG; solve_quiet.
Qed.

(** C9.  Every sender, every pass through [loop()] and every run keeps each
    of the four cached values equal to the last value it transmitted for the
    signal, and leaves the cache as it was when it transmitted none; each
    gated sender transmits at most the one value it is given, and the cache
    then holds that value.  In particular a pitch bend of -1 (slide not
    touched) sends nothing and leaves the state alone. *)
Theorem caches_track_transmissions :
  (forall pb, tracks (sendPitchBend pb DEBUG) /\
              gated PitchBend pb (sendPitchBend pb DEBUG)) /\
  (forall s, sendPitchBend (-1) DEBUG s = (tt, s, [])) /\
  (forall v chan, tracks (sendBreathController v chan DEBUG) /\
                  gated Breath v (sendBreathController v chan DEBUG)) /\
  (forall x y chan,
      tracks (sendXYControllers x y chan DEBUG) /\
      gated XAxis (CInt.int16 (CInt.map x 0 1024 0 127))
            (sendXYControllers x y chan DEBUG) /\
      gated YAxis (CInt.int16 (CInt.map y 0 1024 0 127))
            (sendXYControllers x y chan DEBUG)) /\
  (forall note vel chan, tracks (sendNoteOn note vel chan DEBUG)) /\
  (forall note vel chan, tracks (sendNoteOff note vel chan DEBUG)) /\
  tracks allNotesOff /\
  (forall chan value, tracks (sendMetaCommand chan value)) /\
  (forall r, tracks (loop r)) /\
  (forall rs, tracks (run rs)) /\
  (forall r s,
      getPitchBend r s = -1 ->
      sent PitchBend (trace_of (loop r s)) = [] /\
      currentPitchBend (state_of (loop r s)) = currentPitchBend s).
Proof.
  destruct note_senders_track as (Hon & Hoff & Hall & Hmeta).
  split; [intros pb; split; [apply sendPitchBend_tracks | apply sendPitchBend_gated] |].
  split; [intros s; reflexivity |].
  split; [intros v chan; split;
          [apply sendBreathController_tracks | apply sendBreathController_gated] |].
  split; [intros x y chan; split; [apply sendXYControllers_tracks |];
          split; [apply sendXYControllers_gated_x | apply sendXYControllers_gated_y] |].
  split; [exact Hon |]. split; [exact Hoff |]. split; [exact Hall |].
  split; [exact Hmeta |].
  split; [apply loop_tracks |]. split; [apply run_tracks |].
  intros r s Hpb.
  pose proof (loop_gated PitchBend r s) as Hg.
  destruct Hg as [[Hs Hc] | (_ & _ & _ & Hne)].
  - split; assumption.
  - cbn in Hne. contradiction.
Qed.

Lemma caches_track_transmissions_witness :
  sent PitchBend (trace_of (loop all_released sounding_fundamental)) = [] /\
  currentPitchBend (state_of (loop all_released sounding_fundamental)) =
    currentPitchBend sounding_fundamental.
Proof.
  apply (proj2 (proj2 (proj2 (proj2 (proj2 (proj2 (proj2 (proj2 (proj2 (proj2
          caches_track_transmissions)))))))))).
  reflexivity.
Defined.

(** ** The passes of the note machine, case by case *)

Lemma then_trace {A B : Type} (m : M A) (k : M B) (s : state) :
  trace_of (bind m (fun _ => k) s) = trace_of (m s) ++ trace_of (k (state_of (m s))).
Proof. exact (bind_trace m (fun _ => k) s). Qed.

Lemma then_state {A B : Type} (m : M A) (k : M B) (s : state) :
  state_of (bind m (fun _ => k) s) = state_of (k (state_of (m s))).
Proof. exact (bind_state m (fun _ => k) s). Qed.

Lemma controllers_flush (pb volume x y : Z) :
  emits_only is_controller_message (sendPitchBend pb DEBUG) /\
  emits_only is_controller_message (sendBreathController volume 0 DEBUG) /\
  emits_only is_controller_message (sendXYControllers x y 0 DEBUG) /\
  preserves currentNote (sendPitchBend pb DEBUG) /\
  preserves currentNote (sendBreathController volume 0 DEBUG) /\
  preserves currentNote (sendXYControllers x y 0 DEBUG).
Proof. repeat split; auto with sketch. Qed.

Lemma sendNoteOn_run (note vel chan : Z) (s : state) :
  sendNoteOn note vel chan DEBUG s = (tt, s, [MidiNoteOn chan note vel]).
Proof. reflexivity. Qed.

Lemma sendNoteOff_run (note vel chan : Z) (s : state) :
  sendNoteOff note vel chan DEBUG s = (tt, s, [MidiNoteOff chan note vel]).
Proof. reflexivity. Qed.

Ltac run_sequence :=
  rewrite ?then_trace, ?then_state, ?sendNoteOn_run, ?sendNoteOff_run;
  cbn [trace_of state_of modify fst snd app].

(** Lines 426-434: nothing sounding, breath, and a note to play. *)
Lemma loop_notes_start (r : readings) (s : state) :
  currentNote s = -1 ->
  getVolume r <> 0 ->
  getMIDINote r s <> -1 ->
  exists ctrl,
    forallb is_controller_message ctrl = true /\
    trace_of (loop_notes r s) = ctrl ++ [MidiNoteOn 0 (getMIDINote r s) 127] /\
    currentNote (state_of (loop_notes r s)) = getMIDINote r s.
Proof.
  intros Hc Hv Hn.
  destruct (controllers_flush (getPitchBend r s) (getVolume r) (getXValue r) (getYValue r))
    as (Ep & Eb & Exy & _).
  read_globals. rewrite Hc.
  destruct (Z.eqb_spec 0 (getVolume r)) as [E | _]; [congruence |].
  destruct (Z.eqb_spec (-1) (getMIDINote r s)) as [E | _]; [congruence |].
  cbn [negb andb Z.eqb Pos.eqb].
  run_sequence.
  eexists. split; [| split; [rewrite !app_assoc; reflexivity | reflexivity]].
  rewrite !forallb_app, Eb, Ep, Exy. reflexivity.
Qed.

(** Lines 435-443: a note sounding, breath, and another note to play. *)
Lemma loop_notes_change (r : readings) (s : state) :
  currentNote s <> -1 ->
  getVolume r <> 0 ->
  getMIDINote r s <> currentNote s ->
  exists ctrl,
    forallb is_controller_message ctrl = true /\
    trace_of (loop_notes r s) =
      MidiNoteOff 0 (currentNote s) 0 :: ctrl ++ [MidiNoteOn 0 (getMIDINote r s) 127] /\
    currentNote (state_of (loop_notes r s)) = getMIDINote r s.
Proof.
  intros Hc Hv Hn.
  destruct (controllers_flush (getPitchBend r s) (getVolume r) (getXValue r) (getYValue r))
    as (Ep & Eb & Exy & _).
  read_globals.
  destruct (Z.eqb_spec (-1) (currentNote s)) as [E | _]; [congruence |].
  destruct (Z.eqb_spec 0 (getVolume r)) as [E | _]; [congruence |].
  destruct (Z.eqb_spec (getMIDINote r s) (currentNote s)) as [E | _]; [congruence |].
  cbn [negb andb].
  run_sequence.
  eexists. split; [| split; [rewrite !app_assoc; reflexivity | reflexivity]].
  rewrite !forallb_app, Eb, Ep, Exy. reflexivity.
Qed.

(** Lines 444-452: a note sounding, breath, and the same note to play. *)
Lemma loop_notes_sustain (r : readings) (s : state) :
  currentNote s <> -1 ->
  getVolume r <> 0 ->
  getMIDINote r s = currentNote s ->
  forallb is_controller_message (trace_of (loop_notes r s)) = true /\
  currentNote (state_of (loop_notes r s)) = currentNote s /\
  (cc_interval_elapsed r s = false -> loop_notes r s = (tt, s, [])) /\
  (cc_interval_elapsed r s = true ->
   ccSendTime (state_of (loop_notes r s)) = CInt.long32 (millis_stamp r)).
Proof.
  intros Hc Hv Hn.
  destruct (controllers_flush (getPitchBend r s) (getVolume r) (getXValue r) (getYValue r))
    as (Ep & Eb & Exy & Pp & Pb & Pxy).
  read_globals. rewrite Hn.
  destruct (Z.eqb_spec (-1) (currentNote s)) as [E | _]; [congruence |].
  destruct (Z.eqb_spec 0 (getVolume r)) as [E | _]; [congruence |].
  rewrite Z.eqb_refl. cbn [negb andb].
  rewrite bind_gets_run. cbv beta.
  unfold cc_interval_elapsed.
  destruct (CInt.ulong (CInt.long32 (ccSendTime s + MIN_CC_INTERVAL))
            <? CInt.ulong (millis_test r)) eqn:El.
  - run_sequence. rewrite app_nil_r.
    cbn [currentNote ccSendTime set_ccSendTime].
    rewrite !forallb_app, Eb, Ep, Exy, Pxy, Pb, Pp.
    repeat split; try reflexivity; discriminate.
  - repeat split; try reflexivity; discriminate.
Qed.

(** Lines 422-452 with nothing sounding and either no breath or no note to
    play: no branch is taken. *)
Lemma loop_notes_idle (r : readings) (s : state) :
  currentNote s = -1 ->
  getVolume r = 0 \/ getMIDINote r s = -1 ->
  loop_notes r s = (tt, s, []).
Proof.
  intros Hc Hor. read_globals. rewrite Hc.
  destruct Hor as [E | E]; rewrite E; cbn [Z.eqb negb andb];
    rewrite ?andb_false_r; reflexivity.
Qed.

Lemma getMIDINote_meta_update (r : readings) (s : state) :
  getMIDINote r (meta_update r s) = getMIDINote r s.
Proof.
  unfold getMIDINote. rewrite (proj1 (meta_update_fields r s)). reflexivity.
Qed.

Lemma same_notes_meta_update (r : readings) (s : state) :
  same_notes (meta_update r s) s.
Proof.
  unfold meta_update.
  destruct (digitalRead r META_SW_PIN =? 0); [| destruct (metaMode s)];
    unfold same_notes; repeat split; reflexivity.
Qed.

Lemma cc_interval_elapsed_meta_update (r : readings) (s : state) :
  cc_interval_elapsed r (meta_update r s) = cc_interval_elapsed r s.
Proof.
  unfold cc_interval_elapsed.
  destruct (meta_update_fields r s) as (_ & _ & Ht & _). rewrite Ht. reflexivity.
Qed.

(** X1.  Silent to sounding.  On a pass that starts with no note sounding, a
    mapped volume other than 0 and a note to play, [loop()] ends the pass
    with the note-on of that note on channel 0 at velocity 127; between the
    panic and meta parts and that note-on it sends only pitch-bend and
    controller messages, and the note is the sounding note afterwards. *)
Theorem loop_starts_note (r : readings) (s : state) :
  currentNote s = -1 ->
  getVolume r <> 0 ->
  getMIDINote r s <> -1 ->
  currentNote (state_of (loop r s)) = getMIDINote r s /\
  exists ctrl,
    forallb is_controller_message ctrl = true /\
    trace_of (loop r s) =
      panic_messages r ++ meta_messages r s ++
      ctrl ++ [MidiNoteOn 0 (getMIDINote r s) 127].
Proof.
  intros Hc Hv Hn.
  destruct (meta_update_fields r s) as (Hcur & _).
  destruct (loop_notes_start r (meta_update r s)) as (ctrl & Hctrl & Ht & Hs);
    rewrite ?getMIDINote_meta_update, ?Hcur; try assumption.
  rewrite getMIDINote_meta_update in Ht, Hs.
  rewrite loop_state, loop_trace, Ht, Hs.
  split; [reflexivity |]. exists ctrl. split; [exact Hctrl | reflexivity].
Qed.

Lemma loop_starts_note_witness :
  currentNote (state_of (loop blow_chord_0000 initial_state)) = 48 /\
  exists ctrl,
    forallb is_controller_message ctrl = true /\
    trace_of (loop blow_chord_0000 initial_state) = ctrl ++ [MidiNoteOn 0 48 127].
Proof.
  destruct (loop_starts_note blow_chord_0000 initial_state) as (H1 & ctrl & H2 & H3).
  - reflexivity.
  - vm_compute. discriminate.
  - vm_compute. discriminate.
  - split; [exact H1 |]. exists ctrl. split; [exact H2 | exact H3].
Defined.

(** X2.  Sounding to another note.  On a pass that starts with a note sounding, a
    mapped volume other than 0 and a different note to play, the note
    machine sends the note-off of the old note first (channel 0, velocity
    0), then only pitch-bend and controller messages, then the note-on of
    the new note (channel 0, velocity 127) as the last message of the pass;
    the new note is the sounding note afterwards. *)
Theorem loop_changes_note (r : readings) (s : state) :
  currentNote s <> -1 ->
  getVolume r <> 0 ->
  getMIDINote r s <> currentNote s ->
  currentNote (state_of (loop r s)) = getMIDINote r s /\
  exists ctrl,
    forallb is_controller_message ctrl = true /\
    trace_of (loop r s) =
      panic_messages r ++ meta_messages r s ++
      MidiNoteOff 0 (currentNote s) 0 :: ctrl ++ [MidiNoteOn 0 (getMIDINote r s) 127].
Proof.
  intros Hc Hv Hn.
  destruct (meta_update_fields r s) as (Hcur & _).
  destruct (loop_notes_change r (meta_update r s)) as (ctrl & Hctrl & Ht & Hs);
    rewrite ?getMIDINote_meta_update, ?Hcur; try assumption.
  rewrite getMIDINote_meta_update, Hcur in Ht.
  rewrite getMIDINote_meta_update in Hs.
  rewrite loop_state, loop_trace, Ht, Hs.
  split; [reflexivity |]. exists ctrl. split; [exact Hctrl | reflexivity].
Qed.

Lemma loop_changes_note_witness :
  currentNote (state_of (loop blow_chord_0001 sounding_fundamental)) = 55 /\
  exists ctrl,
    forallb is_controller_message ctrl = true /\
    trace_of (loop blow_chord_0001 sounding_fundamental) =
      MidiNoteOff 0 48 0 :: ctrl ++ [MidiNoteOn 0 55 127].
Proof.
  destruct (loop_changes_note blow_chord_0001 sounding_fundamental)
    as (H1 & ctrl & H2 & H3).
  - vm_compute. discriminate.
  - vm_compute. discriminate.
  - vm_compute. discriminate.
  - split; [exact H1 |]. exists ctrl. split; [exact H2 | exact H3].
Defined.

(** X3.  Silent stays silent.  On a pass that starts with no note sounding, the
    note machine does nothing when the mapped volume is 0, and also when
    there is breath but the chord decodes to no overtone: the pass sends
    only what the panic and meta parts send, and every variable of the note
    machine keeps its value. *)
Theorem loop_stays_silent (r : readings) (s : state) :
  currentNote s = -1 ->
  getVolume r = 0 \/ getOvertoneFromOvertoneSwitches r = -1 ->
  trace_of (loop r s) = panic_messages r ++ meta_messages r s /\
  same_notes (state_of (loop r s)) s.
Proof.
  intros Hc Hor.
  destruct (meta_update_fields r s) as (Hcur & _).
  assert (Hidle : loop_notes r (meta_update r s) = (tt, meta_update r s, [])).
  { apply loop_notes_idle; [rewrite Hcur; exact Hc |].
    destruct Hor as [E | E]; [left; exact E | right].
    rewrite getMIDINote_meta_update. unfold getMIDINote. rewrite E. exact Hc. }
  rewrite loop_state, loop_trace, Hidle. cbn [trace_of state_of fst snd].
  rewrite app_nil_r. split; [reflexivity | apply same_notes_meta_update].
Qed.

Lemma loop_stays_silent_witness :
  trace_of (loop blow_chord_0101 initial_state) = [] /\
  same_notes (state_of (loop blow_chord_0101 initial_state)) initial_state.
Proof.
  apply (loop_stays_silent blow_chord_0101 initial_state).
  - reflexivity.
  - right. reflexivity.
Defined.

(** X4.  The rate limit.  On a pass that holds the sounding note (breath, and
    the same note or no overtone decoded), the note machine sends nothing
    and changes nothing while [millis()] is not past [ccSendTime + 10];
    once it is, the pass sends at most pitch-bend and controller messages
    and sets [ccSendTime] to the second reading of [millis()]. *)
Theorem loop_rate_limit (r : readings) (s : state) :
  currentNote s <> -1 ->
  getVolume r <> 0 ->
  getMIDINote r s = currentNote s ->
  0 <= ccSendTime s ->
  ccSendTime s + MIN_CC_INTERVAL < 2 ^ 31 ->
  0 <= millis_test r < 2 ^ 32 ->
  (millis_test r <= ccSendTime s + MIN_CC_INTERVAL ->
   trace_of (loop r s) = panic_messages r ++ meta_messages r s /\
   same_notes (state_of (loop r s)) s) /\
  (ccSendTime s + MIN_CC_INTERVAL < millis_test r ->
   ccSendTime (state_of (loop r s)) = CInt.long32 (millis_stamp r) /\
   forallb is_controller_message (trace_of (loop_notes r (meta_update r s))) = true /\
   trace_of (loop r s) =
     panic_messages r ++ meta_messages r s ++ trace_of (loop_notes r (meta_update r s))).
Proof.
  intros Hc Hv Hn Ht0 Ht1 Hm.
  destruct (meta_update_fields r s) as (Hcur & _).
  destruct (loop_notes_sustain r (meta_update r s)) as (Hctrl & _ & Hno & Hyes);
    rewrite ?getMIDINote_meta_update, ?Hcur; try assumption.
  rewrite cc_interval_elapsed_meta_update in Hno, Hyes.
  assert (Hel : cc_interval_elapsed r s =
                (ccSendTime s + MIN_CC_INTERVAL <? millis_test r)).
  { unfold cc_interval_elapsed. rewrite long32_small.
    - unfold CInt.ulong. rewrite !Z.mod_small; [reflexivity | lia |].
      unfold MIN_CC_INTERVAL in *. lia.
    - unfold MIN_CC_INTERVAL in *. change (2 ^ 31) with 2147483648 in Ht1. lia. }
  split.
  - intros Hle. rewrite loop_state, loop_trace, Hno.
    + cbn [trace_of state_of fst snd]. rewrite app_nil_r.
      split; [reflexivity | apply same_notes_meta_update].
    + rewrite Hel. apply Z.ltb_ge. exact Hle.
  - intros Hlt. rewrite loop_state, loop_trace.
    split; [apply Hyes; rewrite Hel; apply Z.ltb_lt; exact Hlt |].
    split; [exact Hctrl | reflexivity].
Qed.

Lemma loop_rate_limit_witness :
  trace_of (loop blow_chord_0000 recently_sent) = [] /\
  ccSendTime (state_of (loop blow_chord_0000 sounding_fundamental)) = 1000.
Proof.
  split.
  - destruct (loop_rate_limit blow_chord_0000 recently_sent) as (H & _).
    + vm_compute. discriminate.
    + vm_compute. discriminate.
    + reflexivity.
    + vm_compute. discriminate.
    + reflexivity.
    + vm_compute. split; [discriminate | reflexivity].
    + destruct H as (H & _); [vm_compute; discriminate | exact H].
  - destruct (loop_rate_limit blow_chord_0000 sounding_fundamental) as (_ & H).
    + vm_compute. discriminate.
    + vm_compute. discriminate.
    + reflexivity.
    + vm_compute. discriminate.
    + reflexivity.
    + vm_compute. split; [discriminate | reflexivity].
    + destruct H as (H & _); [reflexivity | exact H].
Defined.

(** ** One note at a time *)

Lemma monophonic_app (cur : Z) (o1 o2 : list event) :
  monophonic cur (o1 ++ o2) =
  match monophonic cur o1 with
  | Some c => monophonic c o2
  | None => None
  end.
Proof.
  revert cur. induction o1 as [| e o1 IH]; intros cur; [reflexivity |].
  cbn [app monophonic].
  destruct e; try apply IH.
  - destruct (chan =? 0); [destruct (cur =? -1) |]; auto.
  - destruct (chan =? 0); [destruct (negb (cur =? -1) && (note =? cur)) |]; auto.
Qed.

Lemma monophonic_elsewhere (cur : Z) (out : list event) :
  filter on_note_channel out = [] -> monophonic cur out = Some cur.
Proof.
  induction out as [| e out IH]; intros H; [reflexivity |].
  cbn [filter] in H. cbn [monophonic].
  destruct e; cbn [on_note_channel] in H;
    try (apply IH; exact H);
    destruct (chan =? 0); try discriminate; apply IH; exact H.
Qed.

Lemma controllers_elsewhere (out : list event) :
  forallb is_controller_message out = true -> filter on_note_channel out = [].
Proof.
  induction out as [| e out IH]; intros H; [reflexivity |].
  cbn in H. apply andb_true_iff in H. destruct H as [He Ho].
  destruct e; try discriminate; cbn; apply IH, Ho.
Qed.

Lemma panic_messages_elsewhere (r : readings) :
  filter on_note_channel (panic_messages r) = [].
Proof.
  unfold panic_messages.
  destruct (digitalRead r PANIC_PIN =? 0); vm_compute; reflexivity.
Qed.

Lemma meta_messages_elsewhere (r : readings) (s : state) :
  filter on_note_channel (meta_messages r s) = [].
Proof.
  unfold meta_messages. destruct (meta_released r s); reflexivity.
Qed.

Lemma loop_note_channel (r : readings) (s : state) :
  filter on_note_channel (trace_of (loop r s)) =
  filter on_note_channel (trace_of (loop_notes r (meta_update r s))).
Proof.
  rewrite loop_trace, !filter_app.
  rewrite panic_messages_elsewhere, meta_messages_elsewhere. reflexivity.
Qed.

(** What the note machine sends on channel 0 and the note it leaves
    sounding, in each of its five cases. *)
Lemma loop_notes_note_channel (r : readings) (s : state) :
  (filter on_note_channel (trace_of (loop_notes r s)) = [] /\
   currentNote (state_of (loop_notes r s)) = currentNote s) \/
  (currentNote s <> -1 /\ getVolume r = 0 /\
   filter on_note_channel (trace_of (loop_notes r s)) =
     [MidiNoteOff 0 (currentNote s) 0] /\
   currentNote (state_of (loop_notes r s)) = -1) \/
  (currentNote s = -1 /\ getVolume r <> 0 /\ getMIDINote r s <> -1 /\
   filter on_note_channel (trace_of (loop_notes r s)) =
     [MidiNoteOn 0 (getMIDINote r s) 127] /\
   currentNote (state_of (loop_notes r s)) = getMIDINote r s) \/
  (currentNote s <> -1 /\ getVolume r <> 0 /\ getMIDINote r s <> currentNote s /\
   filter on_note_channel (trace_of (loop_notes r s)) =
     [MidiNoteOff 0 (currentNote s) 0; MidiNoteOn 0 (getMIDINote r s) 127] /\
   currentNote (state_of (loop_notes r s)) = getMIDINote r s).
Proof.
  destruct (Z.eq_dec (currentNote s) (-1)) as [Hc | Hc];
    destruct (Z.eq_dec (getVolume r) 0) as [Hv | Hv].
  - left. rewrite loop_notes_idle by auto. split; reflexivity.
  - destruct (Z.eq_dec (getMIDINote r s) (-1)) as [Hn | Hn].
    + left. rewrite loop_notes_idle by auto. split; reflexivity.
    + right. right. left.
      destruct (loop_notes_start r s Hc Hv Hn) as (ctrl & Hctrl & Ht & Hs).
      rewrite Ht, Hs, filter_app, (controllers_elsewhere _ Hctrl).
      repeat split; assumption.
  - right. left. rewrite loop_notes_breath_stopped by assumption.
    repeat split; assumption.
  - destruct (Z.eq_dec (getMIDINote r s) (currentNote s)) as [Hn | Hn].
    + left. destruct (loop_notes_sustain r s Hc Hv Hn) as (Hctrl & Hs & _).
      split; [apply controllers_elsewhere, Hctrl | exact Hs].
    + right. right. right.
      destruct (loop_notes_change r s Hc Hv Hn) as (ctrl & Hctrl & Ht & Hs).
      rewrite Ht, Hs. cbn [filter on_note_channel Z.eqb].
      rewrite filter_app, (controllers_elsewhere _ Hctrl).
      repeat split; assumption.
Qed.

Lemma monophonic_filter (cur : Z) (out : list event) :
  monophonic cur out = monophonic cur (filter on_note_channel out).
Proof.
  revert cur. induction out as [| e out IH]; intros cur; [reflexivity |].
  destruct e; cbn [filter on_note_channel monophonic]; try apply IH.
  - destruct (Z.eqb_spec chan 0) as [-> | Hne].
    + cbn [monophonic Z.eqb]. destruct (cur =? -1); [apply IH | reflexivity].
    + apply IH.
  - destruct (Z.eqb_spec chan 0) as [-> | Hne].
    + cbn [monophonic Z.eqb].
      destruct (negb (cur =? -1) && (note =? cur)); [apply IH | reflexivity].
    + apply IH.
Qed.

Lemma loop_monophonic (r : readings) (s : state) :
  monophonic (currentNote s) (trace_of (loop r s)) =
  Some (currentNote (state_of (loop r s))).
Proof.
  rewrite monophonic_filter, loop_note_channel, loop_state.
  destruct (meta_update_fields r s) as (Hcur & _). rewrite <- Hcur.
  destruct (loop_notes_note_channel r (meta_update r s))
    as [(Ht & Hs) | [(Hc & _ & Ht & Hs) | [(Hc & _ & _ & Ht & Hs) | (Hc & _ & _ & Ht & Hs)]]];
    rewrite Ht, Hs; cbn [monophonic Z.eqb].
  - reflexivity.
  - apply Z.eqb_neq in Hc. rewrite Hc, Z.eqb_refl. reflexivity.
  - rewrite Hc. reflexivity.
  - apply Z.eqb_neq in Hc. rewrite Hc, Z.eqb_refl. reflexivity.
Qed.

(** X5.  Monophony.  Over any run from any state, the note messages of channel 0
    alternate: every note-on comes while the sketch holds no sounding note,
    every note-off is for the note it holds, and after the run
    [currentNote] is the note left sounding by those messages (-1 for
    none). *)
Theorem run_monophonic (rs : list readings) (s : state) :
  monophonic (currentNote s) (trace_of (run rs s)) =
  Some (currentNote (state_of (run rs s))).
Proof.
  revert s. induction rs as [| r rs IH]; intros s; [reflexivity |].
  rewrite run_cons_trace, run_cons_state, monophonic_app, loop_monophonic.
  apply IH.
Qed.

(** ** Which notes are played *)

Lemma overtones_at_table (r : readings) (i : Z) :
  0 <= i < 8 -> In (overtones_at r i) overtones.
Proof.
  intros H. unfold overtones_at.
  destruct (Z.leb_spec 0 i); [| lia].
  destruct (Z.ltb_spec i 8); [| lia].
  cbn [andb]. apply nth_In.
  change (List.length overtones) with 8%nat. lia.
Qed.

Lemma getMIDINote_choice (r : readings) (s : state) :
  getOvertoneFromOvertoneSwitches r < 8 ->
  getMIDINote r s = currentNote s \/ In (getMIDINote r s) overtones.
Proof.
  intros Hlt. unfold getMIDINote.
  destruct (Z.eqb_spec (-1) (getOvertoneFromOvertoneSwitches r)) as [E | E];
    [left; reflexivity | right].
  apply overtones_at_table.
  unfold getOvertoneFromOvertoneSwitches in *.
  destruct (overtone_search_result r (getRawOvertoneSwitchValue r)
              (Z.to_nat sizeof_overtone_sw_values) 0) as [H | [H _]]; lia.
Qed.

Lemma In_note_channel (e : event) (out : list event) :
  In e out -> on_note_channel e = true -> In e (filter on_note_channel out).
Proof. intros Hin He. apply filter_In. split; assumption. Qed.

(** A note-on of channel 0 sent by a pass is for the note the pass selects,
    at velocity 127, and that note is not the one that was sounding. *)
Lemma loop_note_on (r : readings) (s : state) (n v : Z) :
  In (MidiNoteOn 0 n v) (trace_of (loop r s)) ->
  n = getMIDINote r s /\ v = 127 /\ n <> currentNote s.
Proof.
  intros Hin. apply In_note_channel in Hin; [| reflexivity].
  rewrite loop_note_channel in Hin.
  destruct (meta_update_fields r s) as (Hcur & _).
  pose proof (getMIDINote_meta_update r s) as Hnote.
  destruct (loop_notes_note_channel r (meta_update r s))
    as [(Ht & _) | [(_ & _ & Ht & _) | [(Hc & _ & Hn & Ht & _) | (Hc & _ & Hn & Ht & _)]]];
    rewrite Ht in Hin; cbn [In] in Hin.
  - destruct Hin.
  - destruct Hin as [E | []]. discriminate.
  - destruct Hin as [E | []]. injection E as <- <-.
    rewrite Hnote in *. rewrite Hcur in Hc. repeat split; congruence.
  - destruct Hin as [E | [E | []]]; [discriminate |]. injection E as <- <-.
    rewrite Hnote in *. rewrite Hcur in *.
    repeat split; congruence.
Qed.

Lemma loop_next_note (r : readings) (s : state) :
  currentNote (state_of (loop r s)) = currentNote s \/
  currentNote (state_of (loop r s)) = -1 \/
  currentNote (state_of (loop r s)) = getMIDINote r s.
Proof.
  rewrite loop_state.
  destruct (meta_update_fields r s) as (Hcur & _).
  pose proof (getMIDINote_meta_update r s) as Hnote.
  destruct (loop_notes_note_channel r (meta_update r s))
    as [(_ & Hs) | [(_ & _ & _ & Hs) | [(_ & _ & _ & _ & Hs) | (_ & _ & _ & _ & Hs)]]];
    rewrite Hs, ?Hcur, ?Hnote; auto.
Qed.

(** X6.  Notes come from the table.  Over a run in which the chord search never
    answers an index past the table, started with no note or a note of
    [overtones] sounding, [currentNote] stays -1 or a note of [overtones],
    and every note-on sent on channel 0 is for a note of [overtones] at
    velocity 127. *)
Theorem run_notes_from_table (rs : list readings) (s : state) :
  (forall r, In r rs -> getOvertoneFromOvertoneSwitches r < 8) ->
  table_note (currentNote s) ->
  table_note (currentNote (state_of (run rs s))) /\
  (forall n v, In (MidiNoteOn 0 n v) (trace_of (run rs s)) ->
               In n overtones /\ v = 127).
Proof.
  revert s. induction rs as [| r rs IH]; intros s Hrs Hs.
  - split; [exact Hs | intros n v []].
  - assert (Hr : getOvertoneFromOvertoneSwitches r < 8) by (apply Hrs; left; reflexivity).
    pose proof (getMIDINote_choice r s Hr) as Hch.
    assert (Hnext : table_note (currentNote (state_of (loop r s)))).
    { destruct (loop_next_note r s) as [E | [E | E]]; rewrite E.
      - exact Hs.
      - left. reflexivity.
      - destruct Hch as [E' | Hin]; [rewrite E'; exact Hs | right; exact Hin]. }
    destruct (IH (state_of (loop r s))) as [IH1 IH2];
      [intros r' Hin; apply Hrs; right; exact Hin | exact Hnext |].
    rewrite run_cons_state, run_cons_trace. split; [exact IH1 |].
    intros n v Hin. apply in_app_or in Hin. destruct Hin as [Hin | Hin].
    + destruct (loop_note_on r s n v Hin) as (En & Ev & Hne).
      split; [| exact Ev]. subst n.
      destruct Hch as [E' | Hin']; [congruence | exact Hin'].
    + apply IH2. exact Hin.
Qed.

Lemma run_notes_from_table_witness :
  table_note (currentNote
                (state_of (run [blow_chord_0000; blow_chord_0101; blow_chord_0001]
                               initial_state))) /\
  (In 55 overtones /\ 127 = 127).
Proof.
  destruct (run_notes_from_table [blow_chord_0000; blow_chord_0101; blow_chord_0001]
                                 initial_state) as [H1 H2].
  - intros r Hin. cbn in Hin.
    destruct Hin as [<- | [<- | [<- | []]]]; vm_compute; reflexivity.
  - left. reflexivity.
  - split; [exact H1 |]. apply (H2 55 127). vm_compute. tauto.
Defined.

(** X7.  Panic leaves a held note alone.  On a pass with the panic pin low, a
    note sounding, breath, and the same note (or no overtone) selected, the
    128 note-offs go out on channel 1 only: no note message is sent on
    channel 0, where the note was started, and the sketch goes on holding
    the note, so it will not start it again. *)
Theorem loop_panic_keeps_note (r : readings) (s : state) :
  digitalRead r PANIC_PIN = 0 ->
  currentNote s <> -1 ->
  getVolume r <> 0 ->
  getMIDINote r s = currentNote s ->
  currentNote (state_of (loop r s)) = currentNote s /\
  filter on_note_channel (trace_of (loop r s)) = [] /\
  exists rest, trace_of (loop r s) = all_notes_off_messages ++ rest.
Proof.
  intros Hp Hc Hv Hn.
  destruct (meta_update_fields r s) as (Hcur & _).
  destruct (loop_notes_sustain r (meta_update r s)) as (Hctrl & Hs & _);
    rewrite ?getMIDINote_meta_update, ?Hcur; try assumption.
  rewrite loop_note_channel, loop_state, Hs, Hcur.
  split; [reflexivity |]. split; [apply controllers_elsewhere, Hctrl |].
  rewrite loop_trace. unfold panic_messages. rewrite Hp. cbn [Z.eqb].
  eexists. reflexivity.
Qed.

Lemma loop_panic_keeps_note_witness :
  currentNote (state_of (loop (with_pin PANIC_PIN 0 blow_chord_0000) sounding_fundamental))
  = currentNote sounding_fundamental /\
  filter on_note_channel
         (trace_of (loop (with_pin PANIC_PIN 0 blow_chord_0000) sounding_fundamental)) = [].
Proof.
  destruct (loop_panic_keeps_note (with_pin PANIC_PIN 0 blow_chord_0000)
                                  sounding_fundamental) as (H1 & H2 & _).
  - reflexivity.
  - vm_compute. discriminate.
  - vm_compute. discriminate.
  - reflexivity.
  - split; [exact H1 | exact H2].
Defined.

Lemma loop_starts_pass (r : readings) (s : state) :
  currentNote s = -1 -> getVolume r <> 0 -> getMIDINote r s <> -1 ->
  filter on_note_channel (trace_of (loop r s)) = [MidiNoteOn 0 (getMIDINote r s) 127] /\
  currentNote (state_of (loop r s)) = getMIDINote r s.
Proof.
  intros Hc Hv Hn.
  destruct (meta_update_fields r s) as (Hcur & _).
  destruct (loop_notes_start r (meta_update r s)) as (ctrl & Hctrl & Ht & Hs);
    rewrite ?getMIDINote_meta_update, ?Hcur; try assumption.
  rewrite getMIDINote_meta_update in Ht, Hs.
  rewrite loop_note_channel, loop_state, Ht, Hs, filter_app.
  rewrite (controllers_elsewhere _ Hctrl). split; reflexivity.
Qed.

Lemma loop_ends_pass (r : readings) (s : state) :
  currentNote s <> -1 -> getVolume r = 0 ->
  filter on_note_channel (trace_of (loop r s)) = [MidiNoteOff 0 (currentNote s) 0] /\
  currentNote (state_of (loop r s)) = -1.
Proof.
  intros Hc Hv.
  destruct (meta_update_fields r s) as (Hcur & _).
  rewrite loop_note_channel, loop_state.
  rewrite loop_notes_breath_stopped by (rewrite ?Hcur; assumption).
  rewrite Hcur. split; reflexivity.
Qed.

(** X8.  A note from start to end.  Whatever the panic and meta switches do, a
    pass with breath and a note to play from silence followed by a pass
    with the mapped volume at 0 sends on channel 0 exactly the note-on of
    that note and then its note-off, and leaves no note sounding. *)
Theorem run_note_lifecycle (r1 r2 : readings) (s : state) :
  currentNote s = -1 ->
  getVolume r1 <> 0 ->
  getMIDINote r1 s <> -1 ->
  getVolume r2 = 0 ->
  filter on_note_channel (trace_of (run [r1; r2] s)) =
    [MidiNoteOn 0 (getMIDINote r1 s) 127; MidiNoteOff 0 (getMIDINote r1 s) 0] /\
  currentNote (state_of (run [r1; r2] s)) = -1.
Proof.
  intros Hc Hv Hn Hv2.
  destruct (loop_starts_pass r1 s Hc Hv Hn) as (Ht1 & Hs1).
  assert (Hne : currentNote (state_of (loop r1 s)) <> -1) by congruence.
  destruct (loop_ends_pass r2 (state_of (loop r1 s)) Hne Hv2) as (Ht2 & Hs2).
  rewrite !run_cons_trace, !run_cons_state. cbn [run ret trace_of state_of fst snd].
  rewrite app_nil_r, filter_app, Ht1, Ht2, Hs1, Hs2. split; reflexivity.
Qed.

Lemma run_note_lifecycle_witness :
  filter on_note_channel (trace_of (run [blow_chord_0000; all_released] initial_state)) =
    [MidiNoteOn 0 48 127; MidiNoteOff 0 48 0] /\
  currentNote (state_of (run [blow_chord_0000; all_released] initial_state)) = -1.
Proof.
  apply (run_note_lifecycle blow_chord_0000 all_released initial_state).
  - reflexivity.
  - vm_compute. discriminate.
  - vm_compute. discriminate.
  - reflexivity.
Defined.

(** ** The sensors *)

Lemma breath_map_value (c : Z) :
  NOTE_ON_VOLUME_THRESHOLD <= c <= VOLUME_MAX_VALUE ->
  CInt.int16 (CInt.map c NOTE_ON_VOLUME_THRESHOLD VOLUME_MAX_VALUE 0 127)
  = ((c - 60) * 127) / 440 /\
  0 <= ((c - 60) * 127) / 440 <= 127.
Proof.
  unfold NOTE_ON_VOLUME_THRESHOLD, VOLUME_MAX_VALUE. intros Hc.
  assert (Hq : 0 <= ((c - 60) * 127) / 440 <= 127).
  { split; [apply Z.div_pos; lia |].
    apply Z.div_le_upper_bound; lia. }
  split; [| exact Hq].
  unfold CInt.map.
  change (127 - 0) with 127. change (500 - 60) with 440.
  rewrite (long32_small (c - 60)) by lia.
  rewrite (long32_small 127) by lia.
  rewrite (long32_small 440) by lia.
  rewrite (long32_small ((c - 60) * 127)) by lia.
  rewrite Z.quot_div_nonneg by lia.
  rewrite Z.add_0_r, long32_small by lia.
  apply int16_small. lia.
Qed.

Lemma getVolume_value (r : readings) :
  getVolume r =
  if analogRead r BREATH_PIN <? 60 then 0
  else ((Z.min (analogRead r BREATH_PIN) 500 - 60) * 127) / 440.
Proof.
  unfold getVolume, getVolumeFromBreathSensor.
  change NOTE_ON_VOLUME_THRESHOLD with 60 at 1.
  destruct (Z.ltb_spec (analogRead r BREATH_PIN) 60) as [H | H]; [reflexivity |].
  set (v := analogRead r BREATH_PIN) in *.
  assert (Hc : CInt.constrain v NOTE_ON_VOLUME_THRESHOLD VOLUME_MAX_VALUE = Z.min v 500).
  { unfold CInt.constrain, NOTE_ON_VOLUME_THRESHOLD, VOLUME_MAX_VALUE.
    destruct (Z.ltb_spec v 60); [lia |].
    destruct (Z.ltb_spec 500 v); lia. }
  rewrite Hc. apply breath_map_value.
  unfold NOTE_ON_VOLUME_THRESHOLD, VOLUME_MAX_VALUE. lia.
Qed.

Lemma getVolume_bounds (r : readings) : 0 <= getVolume r <= 127.
Proof.
  rewrite getVolume_value.
  destruct (Z.ltb_spec (analogRead r BREATH_PIN) 60); [lia |].
  split; [apply Z.div_pos; lia | apply Z.div_le_upper_bound; lia].
Qed.

(** X9.  The breath map.  For every raw reading the mapped volume lies in 0..127;
    it never decreases as the reading increases; it is 0 below the raw
    value 60 and 127 from the raw value 500 on. *)
Theorem getVolume_range_monotone (r1 r2 : readings) :
  0 <= getVolume r1 <= 127 /\
  (analogRead r1 BREATH_PIN <= analogRead r2 BREATH_PIN ->
   getVolume r1 <= getVolume r2) /\
  (analogRead r1 BREATH_PIN < NOTE_ON_VOLUME_THRESHOLD -> getVolume r1 = 0) /\
  (VOLUME_MAX_VALUE <= analogRead r1 BREATH_PIN -> getVolume r1 = 127).
Proof.
  rewrite !getVolume_value.
  unfold NOTE_ON_VOLUME_THRESHOLD, VOLUME_MAX_VALUE.
  set (a := analogRead r1 BREATH_PIN). set (b := analogRead r2 BREATH_PIN).
  assert (Hb : forall c, 60 <= c -> 0 <= ((Z.min c 500 - 60) * 127) / 440 <= 127).
  { intros c Hc. split; [apply Z.div_pos; lia | apply Z.div_le_upper_bound; lia]. }
  split; [| split; [| split]].
  - destruct (Z.ltb_spec a 60); [lia | apply Hb; lia].
  - intros Hab.
    destruct (Z.ltb_spec a 60); destruct (Z.ltb_spec b 60); try lia.
    + apply Hb. lia.
    + apply Z.div_le_mono; lia.
  - intros Ha. destruct (Z.ltb_spec a 60); [reflexivity | lia].
  - intros Ha. destruct (Z.ltb_spec a 60); [lia |].
    rewrite Z.min_r by lia. reflexivity.
Qed.

Lemma getVolume_range_monotone_witness :
  getVolume all_released <= getVolume blow_chord_0000 /\
  getVolume all_released = 0.
Proof.
  destruct (getVolume_range_monotone all_released blow_chord_0000)
    as (_ & H1 & H2 & _).
  split; [apply H1 | apply H2]; vm_compute; congruence.
Defined.

(** X10.  The breath needed for a note.  The mapped volume is other than 0, which
    is what starts and sustains a note, exactly from the raw reading 64 on:
    the readings 60..63 pass the test against [NOTE_ON_VOLUME_THRESHOLD] but
    are mapped to 0. *)
Theorem getVolume_nonzero_iff (r : readings) :
  getVolume r <> 0 <-> 64 <= analogRead r BREATH_PIN.
Proof.
  rewrite getVolume_value.
  set (a := analogRead r BREATH_PIN).
  destruct (Z.ltb_spec a 60) as [H | H]; [split; [congruence | lia] |].
  split.
  - intros Hne. destruct (Z_lt_le_dec a 64) as [Hlt | Hle]; [| exact Hle].
    exfalso. apply Hne. apply Z.div_small. lia.
  - intros H64 E.
    assert (0 < ((Z.min a 500 - 60) * 127) / 440) by (apply Z.div_str_pos; lia).
    lia.
Qed.

Lemma getVolume_nonzero_iff_witness : getVolume blow_chord_0000 <> 0.
Proof.
  apply (proj2 (getVolume_nonzero_iff blow_chord_0000)). vm_compute. discriminate.
Defined.

(** [getPitchBendFromLinearPot] for a touched slide, in both modes. *)
Lemma getPitchBend_touching (r : readings) (s : state) :
  analogRead r SLIDE_LPOT_PIN <= LPOT_NO_TOUCH_VALUE ->
  exists v,
    v = Z.quot ((Z.max 144 (Z.min 350 (analogRead r SLIDE_LPOT_PIN)) - 144) * (-8191)) 206
        + 8191 /\
    0 <= v <= 8191 /\
    getPitchBend r s = if negb (slide_quant_mode s =? 0) then quantizeSlide v else v.
Proof.
  intros Ht. unfold getPitchBend, getPitchBendFromLinearPot.
  destruct (Z.ltb_spec LPOT_NO_TOUCH_VALUE (analogRead r SLIDE_LPOT_PIN)); [lia |].
  set (x := analogRead r SLIDE_LPOT_PIN) in *.
  set (c1 := if LPOT_SLIDE_POS_7 <? x then LPOT_SLIDE_POS_7 else x).
  set (c2 := if c1 <? LPOT_SLIDE_POS_1 then LPOT_SLIDE_POS_1 else c1).
  assert (Hc : c2 = Z.max 144 (Z.min 350 x)).
  { subst c1 c2. unfold LPOT_SLIDE_POS_1, LPOT_SLIDE_POS_7.
    destruct (Z.ltb_spec 350 x);
      repeat match goal with
             | |- context [?a <? ?b] => destruct (Z.ltb_spec a b)
             end; lia. }
  destruct (slide_map_value c2) as [E B].
  { rewrite Hc. unfold LPOT_SLIDE_POS_1, LPOT_SLIDE_POS_7. lia. }
  rewrite E. rewrite Hc in *.
  eexists. split; [reflexivity |]. split; [exact B |].
  destruct (Z.ltb_spec (Z.quot ((Z.max 144 (Z.min 350 x) - 144) * -8191) 206 + 8191) 0);
    [lia | reflexivity].
Qed.

Lemma quantizeSlide_monotone (a b : Z) :
  0 <= a -> a <= b -> b <= 8192 -> quantizeSlide a <= quantizeSlide b.
Proof.
  intros Ha Hab Hb.
  pose proof (quantizeSlide_cases a) as Ca.
  pose proof (quantizeSlide_cases b) as Cb.
  decompose [and or] Ca; decompose [and or] Cb; lia.
Qed.

Lemma getPitchBend_bounds (r : readings) (s : state) :
  (LPOT_NO_TOUCH_VALUE < analogRead r SLIDE_LPOT_PIN -> getPitchBend r s = -1) /\
  (analogRead r SLIDE_LPOT_PIN <= LPOT_NO_TOUCH_VALUE ->
   0 <= getPitchBend r s <= 8191 /\
   (slide_quant_mode s <> 0 -> In (getPitchBend r s) slide_band_outputs)).
Proof.
  split.
  - intros H. unfold getPitchBend, getPitchBendFromLinearPot.
    apply Z.ltb_lt in H. rewrite H. reflexivity.
  - intros H. destruct (getPitchBend_touching r s H) as (v & _ & Hv & E).
    rewrite E.
    pose proof (quantizeSlide_cases v) as C.
    destruct (Z.eqb_spec (slide_quant_mode s) 0) as [Hq | Hq]; cbn [negb].
    + split; [exact Hv | contradiction].
    + split; [| intros _];
        decompose [and or] C;
        match goal with Q : quantizeSlide v = _ |- _ => rewrite Q end;
        cbn; try lia; tauto.
Qed.

(** X11.  The pitch bend and its sentinel.  A raw slide reading above 1010 gives
    -1 in both quantization modes; any other reading gives a value in
    0..8191, never the sentinel, and with quantization on one of the seven
    band outputs. *)
Theorem getPitchBend_range (r : readings) (s : state) :
  (LPOT_NO_TOUCH_VALUE < analogRead r SLIDE_LPOT_PIN -> getPitchBend r s = -1) /\
  (analogRead r SLIDE_LPOT_PIN <= LPOT_NO_TOUCH_VALUE ->
   0 <= getPitchBend r s <= PITCH_BEND_NEUTRAL /\
   (slide_quant_mode s <> 0 -> In (getPitchBend r s) slide_band_outputs)).
Proof. exact (getPitchBend_bounds r s). Qed.

Lemma getPitchBend_range_witness :
  getPitchBend all_released initial_state = -1 /\
  0 <= getPitchBend blow_chord_0000 initial_state <= PITCH_BEND_NEUTRAL.
Proof.
  split.
  - apply (getPitchBend_range all_released initial_state). vm_compute. reflexivity.
  - apply (getPitchBend_range blow_chord_0000 initial_state). vm_compute. discriminate.
Defined.

(** X12.  The quantized slide.  With quantization on, among the readings at or
    below the no-touch value the pitch bend still never increases as the raw
    reading increases; every reading up to the first position (144) gives
    the top band 8191 and every reading from the seventh position (350) on
    gives 0. *)
Theorem getPitchBend_quantized_monotone (r1 r2 : readings) (s : state) :
  slide_quant_mode s <> 0 ->
  analogRead r1 SLIDE_LPOT_PIN <= analogRead r2 SLIDE_LPOT_PIN ->
  analogRead r2 SLIDE_LPOT_PIN <= LPOT_NO_TOUCH_VALUE ->
  getPitchBend r2 s <= getPitchBend r1 s /\
  (analogRead r1 SLIDE_LPOT_PIN <= LPOT_SLIDE_POS_1 -> getPitchBend r1 s = 8191) /\
  (LPOT_SLIDE_POS_7 <= analogRead r2 SLIDE_LPOT_PIN -> getPitchBend r2 s = 0).
Proof.
  intros Hq Hle Ht.
  destruct (getPitchBend_touching r1 s) as (v1 & E1 & B1 & G1); [lia |].
  destruct (getPitchBend_touching r2 s) as (v2 & E2 & B2 & G2); [lia |].
  apply Z.eqb_neq in Hq. rewrite Hq in G1, G2. cbn [negb] in G1, G2.
  rewrite G1, G2.
  unfold LPOT_SLIDE_POS_1, LPOT_SLIDE_POS_7.
  split; [| split].
  - apply quantizeSlide_monotone; [lia | | lia].
    rewrite E1, E2. apply Z.add_le_mono_r. apply Z.quot_le_mono; [lia |]. nia.
  - intros H. rewrite E1, Z.min_r, Z.max_l by lia. reflexivity.
  - intros H. rewrite E2, Z.min_l, Z.max_r by lia. reflexivity.
Qed.

Lemma getPitchBend_quantized_monotone_witness :
  getPitchBend (sample_readings 1 1 1 1 1 1 400 80 0 0) quantizing
  <= getPitchBend (sample_readings 1 1 1 1 1 1 100 80 0 0) quantizing /\
  getPitchBend (sample_readings 1 1 1 1 1 1 100 80 0 0) quantizing = 8191 /\
  getPitchBend (sample_readings 1 1 1 1 1 1 400 80 0 0) quantizing = 0.
Proof.
  destruct (getPitchBend_quantized_monotone
              (sample_readings 1 1 1 1 1 1 100 80 0 0)
              (sample_readings 1 1 1 1 1 1 400 80 0 0) quantizing) as (H1 & H2 & H3).
  - vm_compute. discriminate.
  - vm_compute. discriminate.
  - vm_compute. discriminate.
  - split; [exact H1 | split; [apply H2 | apply H3]]; vm_compute; discriminate.
Defined.

Lemma axis_map_value (x : Z) :
  0 <= x <= 1023 ->
  CInt.int16 (CInt.map x 0 1024 0 127) = (x * 127) / 1024 /\
  0 <= (x * 127) / 1024 <= 126.
Proof.
  intros Hx.
  assert (Hq : 0 <= (x * 127) / 1024 <= 126).
  { split; [apply Z.div_pos; lia |].
    apply Z.lt_succ_r. apply Z.div_lt_upper_bound; lia. }
  split; [| exact Hq].
  unfold CInt.map. rewrite !Z.sub_0_r, Z.add_0_r.
  rewrite (long32_small x) by lia.
  rewrite (long32_small 127) by lia.
  rewrite (long32_small 1024) by lia.
  rewrite (long32_small (x * 127)) by lia.
  rewrite Z.quot_div_nonneg by lia.
  rewrite long32_small by lia.
  apply int16_small. lia.
Qed.

(** X13.  What goes out is MIDI data.  Whatever the state, a pitch-bend message
    of a pass carries a value in 0..8191 (never the sentinel -1) and a
    breath controller message a value in 0..127; with the axis readings in
    the converter's range 0..1023, an X or Y controller message carries a
    value in 0..126. *)
Theorem loop_sends_in_range (sg : signal) (r : readings) (s : state) (e : event) (v : Z) :
  In e (trace_of (loop r s)) ->
  carries sg e = Some v ->
  match sg with
  | PitchBend => 0 <= v <= 8191
  | Breath => 0 <= v <= 127
  | XAxis => 0 <= analogRead r X_SENSOR_PIN <= 1023 -> 0 <= v <= 126
  | YAxis => 0 <= analogRead r Y_SENSOR_PIN <= 1023 -> 0 <= v <= 126
  end.
Proof.
  intros Hin Hc.
  pose proof (sent_In sg _ e v Hin Hc) as Hv.
  destruct (loop_gated sg r s) as [[Hs _] | (Hs & _ & _ & Hok)]; rewrite Hs in Hv.
  - destruct Hv.
  - destruct Hv as [<- | []].
    destruct sg; cbn [candidate sendable] in *.
    + destruct (Z_le_gt_dec (analogRead r SLIDE_LPOT_PIN) LPOT_NO_TOUCH_VALUE) as [Ht | Ht].
      * apply (getPitchBend_bounds r s). exact Ht.
      * exfalso. apply Hok. apply (getPitchBend_bounds r s). lia.
    + apply getVolume_bounds.
    + intros Hx. unfold getXValue.
      destruct (axis_map_value _ Hx) as [E B]. rewrite E. exact B.
    + intros Hy. unfold getYValue.
      destruct (axis_map_value _ Hy) as [E B]. rewrite E. exact B.
Qed.

Lemma loop_sends_in_range_witness : 0 <= 63 <= 126.
Proof.
  apply (loop_sends_in_range XAxis blow_chord_0000 initial_state (MidiCC 0 16 63) 63).
  - vm_compute. tauto.
  - reflexivity.
  - vm_compute. split; discriminate.
Defined.

(** ** The chord *)

(** X14.  The chord pattern, bit by bit.  The pattern read from the switches is a
    4-bit value whose bit 3 is set exactly when switch 0 reads low, bit 2
    when switch 1 does, bit 1 when switch 2 does and bit 0 when switch 3
    does: the pattern tells the pressed switches apart. *)
Theorem getRawOvertoneSwitchValue_bits (r : readings) :
  0 <= getRawOvertoneSwitchValue r < 16 /\
  Z.testbit (getRawOvertoneSwitchValue r) 3 = (digitalRead r OT_SW_0_PIN =? 0) /\
  Z.testbit (getRawOvertoneSwitchValue r) 2 = (digitalRead r OT_SW_1_PIN =? 0) /\
  Z.testbit (getRawOvertoneSwitchValue r) 1 = (digitalRead r OT_SW_2_PIN =? 0) /\
  Z.testbit (getRawOvertoneSwitchValue r) 0 = (digitalRead r OT_SW_3_PIN =? 0).
Proof.
  split; [apply getRawOvertoneSwitchValue_range |].
  unfold getRawOvertoneSwitchValue, CInt.lnot.
  destruct (digitalRead r OT_SW_0_PIN =? 0);
    destruct (digitalRead r OT_SW_1_PIN =? 0);
    destruct (digitalRead r OT_SW_2_PIN =? 0);
    destruct (digitalRead r OT_SW_3_PIN =? 0);
    vm_compute; repeat split.
Qed.


(** The first index the search visits that holds the pattern is its
    answer. *)
Lemma overtone_search_first (r : readings) (val : Z) (n : nat) (i k : Z) :
  i <= k < i + Z.of_nat n ->
  overtone_sw_values_at r k = val ->
  (forall j, i <= j < k -> overtone_sw_values_at r j <> val) ->
  overtone_search r val n i = k.
Proof.
  revert i. induction n as [| n IH]; intros i Hk Hat Hbefore; [lia |].
  cbn [overtone_search].
  destruct (Z.eqb_spec val (overtone_sw_values_at r i)) as [E | E].
  - destruct (Z.eq_dec i k) as [-> | Hne]; [reflexivity |].
    exfalso. apply (Hbefore i); [lia | congruence].
  - destruct (Z.eq_dec i k) as [-> | Hne]; [congruence |].
    apply IH; [lia | exact Hat |]. intros j Hj. apply Hbefore. lia.
Qed.

Lemma overtone_sw_values_distinct : NoDup overtone_sw_values.
Proof.
  unfold overtone_sw_values.
  repeat (constructor; [cbn; intuition discriminate |]). constructor.
Qed.

(** X15.  Table round trip.  When the chord pattern is the entry [i] of
    [overtone_sw_values], the decoder answers [i] and the note to play is
    the entry [i] of [overtones], whatever is sounding and whatever is
    stored past the table. *)
Theorem decode_table_entry (r : readings) (s : state) (i : Z) :
  0 <= i < 8 ->
  getRawOvertoneSwitchValue r = nth (Z.to_nat i) overtone_sw_values 0 ->
  getOvertoneFromOvertoneSwitches r = i /\
  getMIDINote r s = nth (Z.to_nat i) overtones 0.
Proof.
  intros Hi Hraw.
  assert (Hat : forall j, 0 <= j < 8 ->
                          overtone_sw_values_at r j = nth (Z.to_nat j) overtone_sw_values 0).
  { intros j Hj. unfold overtone_sw_values_at.
    destruct (Z.leb_spec 0 j); [| lia]. destruct (Z.ltb_spec j 8); [| lia]. reflexivity. }
  assert (Hdec : getOvertoneFromOvertoneSwitches r = i).
  { unfold getOvertoneFromOvertoneSwitches.
    apply overtone_search_first.
    - change (Z.of_nat (Z.to_nat sizeof_overtone_sw_values)) with 16. lia.
    - rewrite Hat by lia. symmetry. exact Hraw.
    - intros j Hj. rewrite Hat, Hraw by lia. intros E.
      apply (proj1 (NoDup_nth overtone_sw_values 0) overtone_sw_values_distinct) in E;
        change (List.length overtone_sw_values) with 8%nat; lia. }
  split; [exact Hdec |].
  unfold getMIDINote, overtones_at. rewrite Hdec.
  destruct (Z.eqb_spec (-1) i); [lia |].
  destruct (Z.leb_spec 0 i); [| lia]. destruct (Z.ltb_spec i 8); [| lia]. reflexivity.
Qed.

Lemma decode_table_entry_witness :
  getOvertoneFromOvertoneSwitches blow_chord_0001 = 1 /\
  getMIDINote blow_chord_0001 sounding_fundamental = nth 1 overtones 0.
Proof.
  apply (decode_table_entry blow_chord_0001 sounding_fundamental 1).
  - lia.
  - reflexivity.
Defined.



(** ** The meta switch over several passes *)

Lemma loop_commands (r : readings) (s : state) :
  filter is_command (trace_of (loop r s)) = meta_messages r s.
Proof.
  rewrite loop_trace, !filter_app.
  rewrite panic_messages_no_command, loop_notes_no_command, app_nil_r.
  unfold meta_messages. destruct (meta_released r s); reflexivity.
Qed.

Lemma loop_meta_fields (r : readings) (s : state) :
  metaMode (state_of (loop r s)) = metaMode (meta_update r s) /\
  metaValue (state_of (loop r s)) = metaValue (meta_update r s).
Proof. rewrite loop_state. apply loop_notes_keeps_meta. Qed.

(** X17.  The meta command is one shot.  When the meta pin reads low on a pass
    and high on the next two, the first pass sends no command, the second
    sends exactly one, the note-on on channel 1 at velocity 127 whose note
    number is the 4-bit chord pattern read on the first pass, and the third
    sends none. *)
Theorem meta_command_one_shot (r1 r2 r3 : readings) (s : state) :
  digitalRead r1 META_SW_PIN = 0 ->
  digitalRead r2 META_SW_PIN <> 0 ->
  digitalRead r3 META_SW_PIN <> 0 ->
  filter is_command (trace_of (loop r1 s)) = [] /\
  filter is_command (trace_of (loop r2 (state_of (loop r1 s)))) =
    [MidiNoteOn 1 (getRawOvertoneSwitchValue r1) 127] /\
  filter is_command
         (trace_of (loop r3 (state_of (loop r2 (state_of (loop r1 s)))))) = [] /\
  0 <= getRawOvertoneSwitchValue r1 < 16.
Proof.
  intros H1 H2 H3. apply Z.eqb_neq in H2, H3.
  rewrite !loop_commands.
  destruct (loop_meta_fields r1 s) as [Hm1 Hv1].
  destruct (loop_meta_fields r2 (state_of (loop r1 s))) as [Hm2 _].
  unfold meta_update in Hm1, Hv1, Hm2. rewrite H1 in Hm1, Hv1.
  cbn [Z.eqb metaMode metaValue set_metaMode set_metaValue] in Hm1, Hv1.
  rewrite H2, Hm1 in Hm2. cbn [metaMode set_metaMode] in Hm2.
  unfold meta_messages, meta_released.
  rewrite H1, H2, H3, Hm1, Hv1, Hm2.
  repeat split; try reflexivity; apply getRawOvertoneSwitchValue_range.
Qed.

Lemma meta_command_one_shot_witness :
  filter is_command
         (trace_of (loop all_released (state_of (loop meta_held_chord_0001 initial_state)))) =
    [MidiNoteOn 1 (getRawOvertoneSwitchValue meta_held_chord_0001) 127] /\
  filter is_command
         (trace_of (loop all_released
                         (state_of (loop all_released
                                         (state_of (loop meta_held_chord_0001
                                                         initial_state)))))) = [].
Proof.
  destruct (meta_command_one_shot meta_held_chord_0001 all_released all_released
                                  initial_state) as (_ & H2 & H3 & _).
  - reflexivity.
  - vm_compute. discriminate.
  - vm_compute. discriminate.
  - split; [exact H2 | exact H3].
Defined.

(** ** What is never sent *)

Lemma loop_message_forms (r : readings) : emits_only message_form (loop r).
Proof.
  unfold loop, loop_panic, loop_meta, loop_notes, allNotesOff, sendMetaCommand, DEBUG.
  cbv zeta. auto 40 with sketch.
Qed.

(** X18.  The forms of the messages.  Over any run from any state the sketch
    sends only: note-ons at velocity 127 and note-offs at velocity 0, on
    channel 0 or 1; pitch bends; and controller messages on channel 0 for
    the controllers 2 (breath), 16 (X) and 17 (Y).  In particular the volume
    controller 7 is never sent, and nothing is printed on the serial
    port. *)
Theorem run_message_forms (rs : list readings) (s : state) :
  forallb message_form (trace_of (run rs s)) = true.
Proof.
  revert s. induction rs as [| r rs IH]; intros s; [reflexivity |].
  rewrite run_cons_trace, forallb_app, IH, (loop_message_forms r s). reflexivity.
Qed.

(** X19.  The quantization mode is fixed.  No run changes [slide_quant_mode]; from
    power-on it stays 0, so a touched slide always gives the plain linear
    pitch bend and [quantizeSlide] is never applied. *)
Theorem run_never_quantizes (rs : list readings) (s : state) (r : readings) :
  slide_quant_mode (state_of (run rs s)) = slide_quant_mode s /\
  (analogRead r SLIDE_LPOT_PIN <= LPOT_NO_TOUCH_VALUE ->
   getPitchBend r (state_of (run rs initial_state)) =
   Z.quot ((Z.max 144 (Z.min 350 (analogRead r SLIDE_LPOT_PIN)) - 144) * (-8191)) 206
   + 8191).
Proof.
  split; [apply run_quant_mode |].
  intros Ht. apply getPitchBend_unquantized; [| exact Ht].
  rewrite run_quant_mode. reflexivity.
Qed.

Lemma run_never_quantizes_witness :
  getPitchBend blow_chord_0000 (state_of (run [blow_chord_0000; all_released] initial_state))
  = 5965.
Proof.
  destruct (run_never_quantizes [blow_chord_0000; all_released] initial_state
                                blow_chord_0000) as [_ H].
  rewrite H; [reflexivity | vm_compute; discriminate].
Defined.

(** ** The debug flag of the senders *)


